(** * Catalyst AI: the retry wrapper, the concept parser, the two UI actions
      and the image proxy, embedded from [App.jsx] and [server/index.js].

    The JavaScript the program relies on (JSON values, truthiness, property
    reads, string conversion, [split], [trim]) is modelled first; the
    program's own functions follow, one definition per source function. *)

From Stdlib Require Import ZArith String Ascii List Bool Lia DecimalString.
Import ListNotations.
Local Open Scope string_scope.
Local Open Scope Z_scope.
Local Set Warnings "-register-all".

(* ================================================================== *)
(** ** Strings: [trim] and [split(/\d+\.\s+/)] *)
(* ================================================================== *)

Module Text.

(** [\d] without the unicode flag: the ten ASCII digits. *)
Definition is_digit (c : ascii) : bool :=
  let n := nat_of_ascii c in (48 <=? n)%nat && (n <=? 57)%nat.

(** [\s], and the characters [trim] strips, among code units below 256:
    tab, line feed, vertical tab, form feed, carriage return, space and
    the no-break space. *)
Definition is_space (c : ascii) : bool :=
  let n := nat_of_ascii c in
  ((9 <=? n)%nat && (n <=? 13)%nat) || (n =? 32)%nat || (n =? 160)%nat.

Fixpoint trimStart (s : string) : string :=
  match s with
  | String c s' => if is_space c then trimStart s' else s
  | EmptyString => EmptyString
  end.

Fixpoint trimEnd (s : string) : string :=
  match s with
  | EmptyString => EmptyString
  | String c s' =>
      match trimEnd s' with
      | EmptyString => if is_space c then EmptyString else String c EmptyString
      | r => String c r
      end
  end.

(** [String.prototype.trim]. *)
Definition trim (s : string) : string := trimEnd (trimStart s).

(** The longest prefix of [s] whose characters satisfy [p]: its length and
    what follows it. *)
Fixpoint span (p : ascii -> bool) (s : string) : nat * string :=
  match s with
  | String c s' =>
      if p c then let (n, r) := span p s' in (S n, r) else (O, s)
  | EmptyString => (O, EmptyString)
  end.

(** The regular expression [/\d+\.\s+/] tried at the start of [s]: the
    length of the match.  Both [+] are greedy and neither can give a match
    by giving characters back (after fewer digits comes a digit, not the
    period; nothing follows the whitespace), so the match, when there is
    one, is all the digits, the period and all the whitespace. *)
Definition match_marker (s : string) : option nat :=
  let (nd, r1) := span is_digit s in
  match nd, r1 with
  | S _, String "." r2 =>
      let (ns, _) := span is_space r2 in
      match ns with
      | S _ => Some (nd + 1 + ns)%nat
      | O => None
      end
  | _, _ => None
  end.

(** [s.split(/\d+\.\s+/)] by the algorithm of [RegExp.prototype[@@split]]:
    scanning from the left, at each position not inside a match the pattern
    is tried; a match closes the current fragment and its characters are
    skipped ([skip] counts those left to skip); the text after the last
    match, empty or not, is the last fragment. *)
Fixpoint split_from (skip : nat) (frag : string) (s : string) : list string :=
  match s with
  | EmptyString => [frag]
  | String c s' =>
      match skip with
      | S k => split_from k frag s'
      | O =>
          match match_marker s with
          | Some (S k) => frag :: split_from k EmptyString s'
          | _ => split_from O (frag ++ String c EmptyString) s'
          end
      end
  end.

Definition split_marker (s : string) : list string := split_from O EmptyString s.

End Text.
Export Text.

(* ================================================================== *)
(** ** JavaScript values *)
(* ================================================================== *)

Module JS.

(** What [JSON.parse] can produce, plus [undefined], which property reads
    produce.  Numbers are the integer-valued ones (an HTTP status, a length,
    a millisecond count): [JNum n] is the number the integer literal [n]
    denotes.  Strings are sequences of code units below 256. *)
Inductive jsval : Type :=
| JUndefined
| JNull
| JBool (b : bool)
| JNum (n : Z)
| JStr (s : string)
| JArr (items : list jsval)
| JObj (props : list (string * jsval)).

(** A thrown value.  Everything this program throws or receives as a
    rejection is an [Error] object: a name and a message. *)
Record exn : Type := MkExn { exn_name : string; message : string }.

Definition Error (msg : string) : exn := MkExn "Error" msg.
Definition TypeError (msg : string) : exn := MkExn "TypeError" msg.

(** The outcome of an expression or of an awaited promise. *)
Inductive result (A : Type) : Type :=
| Ok (a : A)
| Throw (e : exn).
Arguments Ok {A} a.
Arguments Throw {A} e.

Definition bind {A B} (r : result A) (k : A -> result B) : result B :=
  match r with
  | Ok a => k a
  | Throw e => Throw e
  end.

Notation "x <- r ;; k" := (bind r (fun x => k))
  (at level 61, r at next level, right associativity).

(** ToBoolean. *)
Definition truthy (v : jsval) : bool :=
  match v with
  | JUndefined | JNull => false
  | JBool b => b
  | JNum n => negb (n =? 0)
  | JStr s => negb (String.eqb s "")
  | JArr _ | JObj _ => true
  end.

(** [a || b]. *)
Definition js_or (a b : jsval) : jsval := if truthy a then a else b.

(** The double nearest to a non-negative integer, ties going to the even
    significand: the value [JSON.parse] gives to an integer literal.  Up
    to 2^53 it is the integer itself. *)
Definition nearest_double (m : Z) : Z :=
  let bits := Z.log2 m + 1 in
  if bits <=? 53 then m
  else
    let e := bits - 53 in
    let q := m / 2 ^ e in
    let r := m mod 2 ^ e in
    let half := 2 ^ (e - 1) in
    if (half <? r) || ((r =? half) && Z.odd q) then (q + 1) * 2 ^ e else q * 2 ^ e.

Definition decimal (m : Z) : string := NilZero.string_of_int (Z.to_int m).

(** The decimal with the fewest significant digits that still reads back
    as the double [x], the nearest to [x] among those, the even one on a
    tie.  [scale] is the weight of the last digit kept, one digit to
    start with; seventeen digits always suffice. *)
Fixpoint shortest (fuel : nat) (x scale : Z) : Z :=
  match fuel with
  | O => x
  | S fuel' =>
      let lo := (x / scale) * scale in
      let hi := lo + scale in
      let lo_ok := nearest_double lo =? x in
      let hi_ok := nearest_double hi =? x in
      if lo_ok && hi_ok then
        if x - lo <? hi - x then lo
        else if hi - x <? x - lo then hi
        else if Z.even (lo / scale) then lo else hi
      else if lo_ok then lo
      else if hi_ok then hi
      else shortest fuel' x (scale / 10)
  end.

Fixpoint strip_zeros (s : string) : string :=
  match s with
  | EmptyString => EmptyString
  | String c s' =>
      match strip_zeros s' with
      | EmptyString => if Ascii.eqb c "0" then EmptyString else String c EmptyString
      | r => String c r
      end
  end.

(** [d.ddde+n] for the digits of an integer of more than 21 digits. *)
Definition exponent_form (digits : string) : string :=
  match digits with
  | EmptyString => EmptyString
  | String d rest =>
      String d ((match strip_zeros rest with
                 | EmptyString => EmptyString
                 | frac => "." ++ frac
                 end)
                ++ "e+" ++ decimal (Z.of_nat (String.length rest)))
  end.

Definition string_of_pos (m : Z) : string :=
  let x := nearest_double m in
  if x <? 2 ^ 53 then decimal x
  else if 2 ^ 1024 <=? x then "Infinity"
  else
    let digits :=
      decimal (shortest 17 x (10 ^ (Z.of_nat (String.length (decimal x)) - 1))) in
    if (String.length digits <=? 21)%nat then digits else exponent_form digits.

(** Number::toString for the number an integer literal denotes: all its
    digits up to 2^53; beyond, the shortest digits that identify the
    double, padded with zeros up to 21 digits and in exponent form from
    10^21 on. *)
Definition string_of_Z (n : Z) : string :=
  if n <? 0 then "-" ++ string_of_pos (- n) else string_of_pos n.

(** The string ToString returns when it returns one ([ToString] below
    says when it throws instead).  An array joins its elements with a
    comma, [null] and [undefined] elements printing as nothing; an object
    prints as [[object Object]]. *)
Fixpoint to_string (v : jsval) : string :=
  match v with
  | JUndefined => "undefined"
  | JNull => "null"
  | JBool true => "true"
  | JBool false => "false"
  | JNum n => string_of_Z n
  | JStr s => s
  | JArr items =>
      (fix join (l : list jsval) : string :=
         match l with
         | [] => ""
         | x :: rest =>
             let sx := match x with
                       | JUndefined | JNull => ""
                       | _ => to_string x
                       end in
             match rest with
             | [] => sx
             | _ :: _ => sx ++ "," ++ join rest
             end
         end) items
  | JObj _ => "[object Object]"
  end.

Definition has_key (k : string) (props : list (string * jsval)) : bool :=
  existsb (fun kv => String.eqb k (fst kv)) props.

(** ToString does not throw on [v].  An object parsed from JSON inherits a
    callable [toString] unless it has a property of that name of its own,
    which is then a JSON value and not callable; its [valueOf], inherited
    or not, gives no primitive; so the conversion throws exactly for such
    an object, alone or among the elements an array joins. *)
Fixpoint convertible (v : jsval) : bool :=
  match v with
  | JObj props => negb (has_key "toString" props)
  | JArr items =>
      (fix all (l : list jsval) : bool :=
         match l with
         | [] => true
         | x :: rest => convertible x && all rest
         end) items
  | _ => true
  end.

(** The exception of a failed conversion; the text is the one V8 gives. *)
Definition cannot_convert : exn := TypeError "Cannot convert object to primitive value".

(** ToString. *)
Definition ToString (v : jsval) : result string :=
  if convertible v then Ok (to_string v) else Throw cannot_convert.

(** [new Error(v)]: the message is [ToString(v)] unless [v] is
    [undefined]; the conversion may throw. *)
Definition new_Error (v : jsval) : result exn :=
  match v with
  | JUndefined => Ok (Error "")
  | _ => msg <- ToString v ;; Ok (Error msg)
  end.

Fixpoint lookup (k : string) (props : list (string * jsval)) : jsval :=
  match props with
  | [] => JUndefined
  | (k', v) :: rest => if String.eqb k k' then v else lookup k rest
  end.

Definition cannot_read (base k : string) : exn :=
  TypeError ("Cannot read properties of " ++ base ++ " (reading '" ++ k ++ "')").

(** [v.k] for a property name [k] written as an identifier in the source.
    Reading from [null] or [undefined] throws; a string and an array own
    [length]; nothing else the program names lives on a prototype. *)
Definition get (v : jsval) (k : string) : result jsval :=
  match v with
  | JUndefined => Throw (cannot_read "undefined" k)
  | JNull => Throw (cannot_read "null" k)
  | JObj props => Ok (lookup k props)
  | JArr items =>
      Ok (if String.eqb k "length" then JNum (Z.of_nat (List.length items))
          else JUndefined)
  | JStr s =>
      Ok (if String.eqb k "length" then JNum (Z.of_nat (String.length s))
          else JUndefined)
  | JBool _ | JNum _ => Ok JUndefined
  end.

(** [v[n]] for a literal index [n]. *)
Definition get_index (v : jsval) (n : nat) : result jsval :=
  match v with
  | JUndefined => Throw (cannot_read "undefined" (string_of_Z (Z.of_nat n)))
  | JNull => Throw (cannot_read "null" (string_of_Z (Z.of_nat n)))
  | JArr items => Ok (nth n items JUndefined)
  | JStr s =>
      Ok (match String.get n s with
          | Some c => JStr (String c "")
          | None => JUndefined
          end)
  | JObj props => Ok (lookup (string_of_Z (Z.of_nat n)) props)
  | JBool _ | JNum _ => Ok JUndefined
  end.

Fixpoint digits_value (acc : Z) (s : string) : option Z :=
  match s with
  | EmptyString => Some acc
  | String c s' =>
      if is_digit c
      then digits_value (10 * acc + Z.of_nat (nat_of_ascii c - 48)) s'
      else None
  end.

Definition one_of (cs : string) (c : ascii) : bool :=
  existsb (Ascii.eqb c) (list_ascii_of_string cs).

(** A run of one or more digits of a radix and nothing else: whether its
    value is positive, that is, whether some digit is not 0. *)
Definition radix_positive (digit : ascii -> bool) (ds : string) : bool :=
  match span digit ds with
  | (S _, EmptyString) => negb (snd (span (one_of "0") ds) =? "")%string
  | _ => false
  end.

(** [ExponentPart], or nothing: the exponent. *)
Definition exponent_part (r : string) : option Z :=
  match r with
  | EmptyString => Some 0
  | String c r' =>
      if one_of "eE" c then
        let (negative, ds) :=
          match r' with
          | String "-" d => (true, d)
          | String "+" d => (false, d)
          | d => (false, d)
          end in
        match ds, digits_value 0 ds with
        | String _ _, Some x => Some (if negative then - x else x)
        | _, _ => None
        end
      else None
  end.

(** [m * 10^e], for [m] of at most [d] digits, does not round to 0: it is
    above 2^-1075, half the least positive double.  Below 10^-324 nothing
    is. *)
Definition rounds_above_zero (m e : Z) (d : nat) : bool :=
  if m =? 0 then false
  else if 0 <=? e then true
  else if Z.of_nat d + e <=? -324 then false
  else 10 ^ (- e) <? m * 2 ^ 1075.

(** An unsigned [StrDecimalLiteral] other than [Infinity] (digits, with
    an optional fraction and exponent) whose value is positive. *)
Definition decimal_positive (s : string) : bool :=
  let (ni, r1) := span is_digit s in
  let '(fraction, nf, r3) :=
    match r1 with
    | String "." r2 => let (nf, r3) := span is_digit r2 in (substring 0 nf r2, nf, r3)
    | _ => (EmptyString, O, r1)
    end in
  match (ni + nf)%nat with
  | O => false
  | S _ =>
      match digits_value 0 (substring 0 ni s ++ fraction), exponent_part r3 with
      | Some m, Some x => rounds_above_zero m (x - Z.of_nat nf) (ni + nf)
      | _, _ => false
      end
  end.

Definition unsigned_positive (s : string) : bool :=
  if (s =? "Infinity")%string then true else decimal_positive s.

(** [StringToNumber(s) > 0]: false when [s] is not a numeric literal
    (NaN), is zero or negative, or rounds to zero.  Whitespace around the
    literal is dropped; the empty string is 0; a radix prefix takes no
    sign. *)
Definition string_gt_zero (s : string) : bool :=
  match trim s with
  | EmptyString => false
  | String "-" _ => false
  | String "+" r => unsigned_positive r
  | String "0" (String c ds) as t =>
      if one_of "xX" c then radix_positive (one_of "0123456789abcdefABCDEF") ds
      else if one_of "oO" c then radix_positive (one_of "01234567") ds
      else if one_of "bB" c then radix_positive (one_of "01") ds
      else unsigned_positive t
  | t => unsigned_positive t
  end.

(** [v > 0].  An array or an object is first converted to a string, which
    may throw. *)
Definition gt_zero (v : jsval) : result bool :=
  match v with
  | JUndefined | JNull => Ok false
  | JBool b => Ok b
  | JNum n => Ok (0 <? n)
  | JStr s => Ok (string_gt_zero s)
  | JArr _ | JObj _ => s <- ToString v ;; Ok (string_gt_zero s)
  end.

Definition nullish (v : jsval) : bool :=
  match v with
  | JUndefined | JNull => true
  | _ => false
  end.

(** [v?.k] and [v?.[n]]: [undefined] on a nullish base, the read otherwise. *)
Definition opt_get (v : jsval) (k : string) : jsval :=
  match get v k with
  | Ok x => x
  | Throw _ => JUndefined
  end.

Definition opt_index (v : jsval) (n : nat) : jsval :=
  match get_index v n with
  | Ok x => x
  | Throw _ => JUndefined
  end.

End JS.
Export JS.


(* ================================================================== *)
(** ** The network and the trace of effects *)
(* ================================================================== *)

Module Net.

(** A call [fetch(url, { method: 'POST', headers, body: JSON.stringify(payload) })]:
    the method is always POST, and the body is kept as the value it
    serialises. *)
Record request : Type := {
  url : string;
  headers : list (string * string);
  payload : jsval
}.

(** A [Response]: its status, and what awaiting [response.json()] gives
    (the parsed body, or the rejection for a body that is not JSON). *)
Record response : Type := {
  status : Z;
  json : result jsval
}.

(** [response.ok]: the status is in the range 200-299. *)
Definition ok (r : response) : bool := (200 <=? status r) && (status r <=? 299).

(** What a run does to the outside, in order. *)
Inductive event : Type :=
| EvFetch (req : request)
| EvSleep (ms : Z)
| EvConsoleError (label : string) (e : exn)
| EvGetClient
| EvGetAccessToken.

End Net.
Export Net.

(* ================================================================== *)
(** ** [fetchWithBackoff] *)
(* ================================================================== *)

Module Backoff.

(** How the [try] block of one iteration ends when it does not throw:
    [return response.json()] hands the promise to the caller without
    awaiting it, so a rejection of that promise is the caller's and not the
    [catch]'s; the 429 branch falls through to the next iteration. *)
Inductive completion : Type :=
| Returned (p : result jsval)
| RateLimited.

(** The [try] block, given what [await fetch(url, options)] produced;
    [Throw] is an exception raised inside the block. *)
Definition attempt (fetched : result response) : result completion :=
  response <- fetched ;;
  if ok response then
    Ok (Returned (json response))
  else if status response =? 429 then
    Ok RateLimited
  else
    errData <- json response ;;
    err <- get errData "error" ;;
    error <- new_Error (js_or (opt_get err "message")
                              (JStr ("HTTP error! status: " ++ string_of_Z (status response)))) ;;
    Throw error.

Definition retries_exhausted : exn := Error "Request failed after multiple retries.".

Section Loop.

(** [fetch k] is what the [k]-th call to [fetch] of this invocation
    produces (the first call is number 0). *)
Variable fetch : nat -> result response.
Variable req : request.
Variable maxRetries : Z.

(** The [for] loop from iteration [i] on, with [n] iterations left
    ([i < maxRetries] is [n <> 0]); the result comes with the events from
    there on.  Both the 429 branch and the [catch] sleep for [delay] and
    double it. *)
Fixpoint attempts (n : nat) (i delay : Z) : result jsval * list event :=
  match n with
  | O => (Throw retries_exhausted, [])
  | S n' =>
      let next :=
        let (r, evs) := attempts n' (i + 1) (delay * 2) in
        (r, EvSleep delay :: evs) in
      let (r, evs) :=
        match attempt (fetch (Z.to_nat i)) with
        | Ok (Returned p) => (p, [])
        | Ok RateLimited => next
        | Throw e => if i =? maxRetries - 1 then (Throw e, []) else next
        end in
      (r, EvFetch req :: evs)
  end.

Definition fetchWithBackoff : result jsval * list event :=
  attempts (Z.to_nat maxRetries) 0 1000.

End Loop.

(** [maxRetries = 5] when the caller passes none. *)
Definition default_maxRetries : Z := 5.

End Backoff.
Export Backoff.

(* ================================================================== *)
(** ** The session state and the two UI actions *)
(* ================================================================== *)

Module App.

Record concept : Type := {
  id : Z;
  text : string;
  imageUrl : option string
}.

(** The [useState] cells of [App].  [creativity] is kept in hundredths (the
    slider moves in steps of 0.01 from 0 to 1); [null] is [None]. *)
Record state : Type := {
  apiKey : string;
  brief : string;
  creativity : Z;
  concepts : list concept;
  isLoadingIdeas : bool;
  loadingImageId : option Z;
  error : option string
}.

Definition setConcepts (f : list concept -> list concept) (s : state) : state :=
  {| apiKey := apiKey s; brief := brief s; creativity := creativity s;
     concepts := f (concepts s);
     isLoadingIdeas := isLoadingIdeas s; loadingImageId := loadingImageId s;
     error := error s |}.

Definition setIsLoadingIdeas (b : bool) (s : state) : state :=
  {| apiKey := apiKey s; brief := brief s; creativity := creativity s;
     concepts := concepts s;
     isLoadingIdeas := b; loadingImageId := loadingImageId s;
     error := error s |}.

Definition setLoadingImageId (i : option Z) (s : state) : state :=
  {| apiKey := apiKey s; brief := brief s; creativity := creativity s;
     concepts := concepts s;
     isLoadingIdeas := isLoadingIdeas s; loadingImageId := i;
     error := error s |}.

Definition setError (e : option string) (s : state) : state :=
  {| apiKey := apiKey s; brief := brief s; creativity := creativity s;
     concepts := concepts s;
     isLoadingIdeas := isLoadingIdeas s; loadingImageId := loadingImageId s;
     error := e |}.

(** What an action meets outside the session: the outcome of each call to
    [fetch] and the reading of each call to [Date.now()], both numbered
    from 0 within the action. *)
Record world : Type := {
  fetch : nat -> result response;
  now : nat -> Z
}.

Definition json_headers : list (string * string) :=
  [("Content-Type", "application/json")].

(** *** [generateIdeas] *)

(** [creativityLevels[creativity]]: five keys, [undefined] elsewhere. *)
Definition creativityLevels (creativity : Z) : jsval :=
  if creativity =? 0 then JStr "strictly conventional and brand-safe"
  else if creativity =? 25 then JStr "conventional with a slight creative touch"
  else if creativity =? 50 then JStr "a balance of creative and conventional"
  else if creativity =? 75 then JStr "highly creative and artistic"
  else if creativity =? 100
       then JStr "wildly unorthodox and experimental, pushing all boundaries"
  else JUndefined.

Definition ideas_prompt (creativity : Z) (brief : string) : string :=
  "
      You are an expert Creative Director at a top-tier advertising agency.
      Based on the following creative brief, generate 5 distinct campaign concepts.
      Each concept must have a catchy headline and a short, compelling paragraph (2-3 sentences) explaining the core idea.
      The tone of the concepts should be "
  ++ to_string (creativityLevels creativity)
  ++ ".

      Creative Brief:
      ---
      "
  ++ brief
  ++ "
      ---

      Format your response as a numbered list (1., 2., 3., etc.). Do not include any other text before or after the list.
    ".

Definition ideas_request (s : state) : request :=
  {| url := "https://generativelanguage.googleapis.com/v1/models/gemini-1.5-flash:generateContent?key="
            ++ apiKey s;
     headers := json_headers;
     payload :=
       JObj [("contents",
              JArr [JObj [("role", JStr "user");
                          ("parts", JArr [JObj [("text", JStr (ideas_prompt (creativity s) (brief s)))]])]])] |}.

(** [xs.map((x, index) => f(index, x))]. *)
Fixpoint mapi_from {A B} (k : nat) (f : nat -> A -> B) (l : list A) : list B :=
  match l with
  | [] => []
  | x :: rest => f k x :: mapi_from (S k) f rest
  end.

Definition mapi {A B} (f : nat -> A -> B) (l : list A) : list B := mapi_from O f l.

(** The concept-list parser: split, filter, map.  [new_concept] is the
    callback of [map]; it reads the clock once per element, so element
    [index] gets the [index]-th reading. *)
Definition new_concept (now : nat -> Z) (index : nat) (conceptText : string) : concept :=
  {| id := now index + Z.of_nat index;
     text := trim conceptText;
     imageUrl := None |}.

Definition parseConcepts (now : nat -> Z) (text : string) : list concept :=
  mapi (new_concept now)
       (filter (fun c => (0 <? String.length (trim c))%nat) (split_marker text)).

(** [result?.candidates?.[0]?.content?.parts?.[0]?.text]. *)
Definition candidate_text (result : jsval) : jsval :=
  opt_get (opt_index (opt_get (opt_get (opt_index (opt_get result "candidates") 0)
                                       "content") "parts") 0) "text".

(** The [try] block after the [await]: the concepts to set, or the
    exception.  A truthy [text] that is not a string has no [split]. *)
Definition ideas_of_result (now : nat -> Z) (fetched : result jsval)
  : result (list concept) :=
  result <- fetched ;;
  let text := candidate_text result in
  if negb (truthy text) then Throw (Error "Invalid response structure from API.")
  else match text with
       | JStr t => Ok (parseConcepts now t)
       | _ => Throw (TypeError "text.split is not a function")
       end.

(** [try]/[catch]/[finally] once [fetchWithBackoff] has settled, run on
    the state of that moment. *)
Definition generateIdeas_settle (now : nat -> Z) (fetched : result jsval)
                                (s : state) : state * list event :=
  let (s, evs) :=
    match ideas_of_result now fetched with
    | Ok parsedConcepts => (setConcepts (fun _ => parsedConcepts) s, [])
    | Throw err =>
        (setError (Some ("Failed to generate ideas. " ++ message err)) s,
         [EvConsoleError "Error generating ideas:" err])
    end in
  (setIsLoadingIdeas false s, evs).

Definition generateIdeas (w : world) (s : state) : state * list event :=
  if negb (truthy (JStr (brief s))) then
    (setError (Some "Please enter a creative brief.") s, [])
  else
    let req := ideas_request s in
    let s := setIsLoadingIdeas true s in
    let s := setError None s in
    let s := setConcepts (fun _ => []) s in
    let (fetched, evs) := fetchWithBackoff (fetch w) req default_maxRetries in
    let (s, evs') := generateIdeas_settle (now w) fetched s in
    (s, (evs ++ evs')%list).

(** *** [visualizeConcept] *)

Definition image_prompt (conceptText : string) : string :=
  "
      Create a stunning, photorealistic, cinematic advertisement image for the following campaign concept.
      The image should be high-resolution, emotionally resonant, and visually striking, suitable for a major brand campaign.
      Focus on the visual essence of the idea.

      Concept:
      ---
      "
  ++ conceptText
  ++ "
      ---
    ".

Definition image_request (s : state) (conceptText : string) : request :=
  {| url := "https://us-central1-aiplatform.googleapis.com/v1/projects/gemini-429018/locations/us-central1/publishers/google/models/imagen-3.0-generate-002:predict?key="
            ++ apiKey s;
     headers := json_headers;
     payload :=
       JObj [("instances", JArr [JObj [("prompt", JStr (image_prompt conceptText))]]);
             ("parameters", JObj [("sampleCount", JNum 1)])] |}.

Definition no_image_data : exn := Error "No image data received from API.".

(** The test on the result and the data URI built from it. *)
Definition imageUrl_of_result (fetched : result jsval) : result string :=
  result <- fetched ;;
  predictions <- get result "predictions" ;;
  if truthy predictions then
    len <- get predictions "length" ;;
    positive <- gt_zero len ;;
    if positive then
      first <- get_index predictions 0 ;;
      bytes <- get first "bytesBase64Encoded" ;;
      if truthy bytes then
        encoded <- ToString bytes ;;
        Ok ("data:image/png;base64," ++ encoded)
      else Throw no_image_data
    else Throw no_image_data
  else Throw no_image_data.

(** [prevConcepts.map(c => (c.id === conceptId ? { ...c, imageUrl } : c))]. *)
Definition set_image (conceptId : Z) (imageUrl : string) (prevConcepts : list concept)
  : list concept :=
  map (fun c => if id c =? conceptId
                then {| id := id c; text := text c; imageUrl := Some imageUrl |}
                else c)
      prevConcepts.

Definition visualizeConcept_settle (conceptId : Z) (fetched : result jsval)
                                   (s : state) : state * list event :=
  let (s, evs) :=
    match imageUrl_of_result fetched with
    | Ok imageUrl => (setConcepts (set_image conceptId imageUrl) s, [])
    | Throw err =>
        (setError (Some ("Failed to generate image. " ++ message err)) s,
         [EvConsoleError "Error visualizing concept:" err])
    end in
  (setLoadingImageId None s, evs).

Definition visualizeConcept (w : world) (conceptId : Z) (conceptText : string)
                            (s : state) : state * list event :=
  let req := image_request s conceptText in
  let s := setLoadingImageId (Some conceptId) s in
  let s := setError None s in
  let (fetched, evs) := fetchWithBackoff (fetch w) req default_maxRetries in
  let (s, evs') := visualizeConcept_settle conceptId fetched s in
  (s, (evs ++ evs')%list).

(** *** The gate on the "Generate Ideas" button *)

(** [disabled={isLoadingIdeas || !apiKey}] on the button whose [onClick] is
    the only caller of [generateIdeas]. *)
Definition generate_disabled (s : state) : bool :=
  isLoadingIdeas s || negb (truthy (JStr (apiKey s))).

(** *** The actions a user can start *)

Inductive action : Type :=
| GenerateIdeas
| VisualizeConcept (conceptId : Z) (conceptText : string).

Definition run (w : world) (a : action) (s : state) : state * list event :=
  match a with
  | GenerateIdeas => generateIdeas w s
  | VisualizeConcept conceptId conceptText => visualizeConcept w conceptId conceptText s
  end.

End App.
Export App.

(* ================================================================== *)
(** ** The proxy: [app.post('/generate-image', ...)] *)
(* ================================================================== *)

Module Proxy.

(** What the handler meets: the outcome of [auth.getClient()], of
    [client.getAccessToken()] (the object whose [token] is read) and of the
    call to the provider. *)
Record world : Type := {
  getClient : result unit;
  getAccessToken : result jsval;
  upstream : result response
}.

(** [res.status(code).json(content)]; [res.json] alone answers 200. *)
Record reply : Type := {
  code : Z;
  content : jsval
}.

(** A computation that may throw and leaves events behind either way. *)
Definition io (A : Type) : Type := (result A * list event)%type.

Definition io_ret {A} (a : A) : io A := (Ok a, []).

Definition io_bind {A B} (m : io A) (k : A -> io B) : io B :=
  match m with
  | (Ok a, evs) => let (r, evs') := k a in (r, (evs ++ evs')%list)
  | (Throw e, evs) => (Throw e, evs)
  end.

Definition lift {A} (r : result A) : io A := (r, []).
Definition perform {A} (ev : event) (r : result A) : io A := (r, [ev]).

Notation "x <~ m ;; k" := (io_bind m (fun x => k))
  (at level 61, m at next level, right associativity).

(** [const { prompt } = req.body]. *)
Definition destructure_prompt (body : jsval) : result jsval :=
  match body with
  | JUndefined =>
      Throw (TypeError "Cannot destructure property 'prompt' of 'req.body' as it is undefined.")
  | JNull =>
      Throw (TypeError "Cannot destructure property 'prompt' of 'req.body' as it is null.")
  | _ => get body "prompt"
  end.

Definition apiUrl : string :=
  "https://us-central1-aiplatform.googleapis.com/v1/projects/gemini-429018/locations/us-central1/publishers/google/models/imagen-3.0-generate-002:predict".

(** The token is what the authentication library hands out, a string,
    [null] or [undefined], on which the conversion in
    [`Bearer ${accessToken}`] does not throw. *)
Definition upstream_request (accessToken prompt : jsval) : request :=
  {| url := apiUrl;
     headers := [("Authorization", "Bearer " ++ to_string accessToken);
                 ("Content-Type", "application/json")];
     payload :=
       JObj [("instances", JArr [JObj [("prompt", prompt)]]);
             ("parameters", JObj [("sampleCount", JNum 1)])] |}.

Definition prompt_required : reply :=
  {| code := 400; content := JObj [("error", JStr "Prompt is required.")] |}.

(** The [try] block; [Ok] is the reply it sends. *)
Definition handler_try (w : world) (body : jsval) : io reply :=
  prompt <~ lift (destructure_prompt body) ;;
  if negb (truthy prompt) then
    io_ret prompt_required
  else
    client <~ perform EvGetClient (getClient w) ;;
    tokenResponse <~ perform EvGetAccessToken (getAccessToken w) ;;
    accessToken <~ lift (get tokenResponse "token") ;;
    response <~ perform (EvFetch (upstream_request accessToken prompt)) (upstream w) ;;
    if negb (ok response) then
      errorData <~ lift (json response) ;;
      err <~ lift (get errorData "error") ;;
      error <~ lift (new_Error
                       (js_or (opt_get err "message")
                              (JStr ("HTTP error! status: " ++ string_of_Z (status response))))) ;;
      lift (Throw error)
    else
      data <~ lift (json response) ;;
      io_ret {| code := 200; content := data |}.

(** The handler: the reply and the events, for a request body [body]. *)
Definition generate_image (w : world) (body : jsval) : reply * list event :=
  match handler_try w body with
  | (Ok r, evs) => (r, evs)
  | (Throw error, evs) =>
      ({| code := 500; content := JObj [("error", JStr (message error))] |},
       (evs ++ [EvConsoleError "Error in /generate-image:" error])%list)
  end.

End Proxy.

(* ================================================================== *)
(** ** Reading a trace *)
(* ================================================================== *)

Module Trace.

Definition is_fetch (ev : event) : bool :=
  match ev with
  | EvFetch _ => true
  | _ => false
  end.

(** The number of calls to [fetch] in a trace. *)
Definition count_fetches (evs : list event) : nat := List.length (filter is_fetch evs).

(** [m] attempts, each followed by its wait, the first wait being [delay]
    and each next one twice the one before. *)
Fixpoint backoff_prefix (req : request) (delay : Z) (m : nat) : list event :=
  match m with
  | O => []
  | S m' => EvFetch req :: EvSleep delay :: backoff_prefix req (delay * 2) m'
  end.

(** Attempt [k] sends the loop round again: the answer was 429, or the
    [try] block threw and [k] is not the last iteration. *)
Definition retried (fetch : nat -> result response) (maxRetries : Z) (k : nat) : bool :=
  match attempt (fetch k) with
  | Ok RateLimited => true
  | Ok (Returned _) => false
  | Throw _ => negb (Z.of_nat k =? maxRetries - 1)
  end.

(** Attempt [k] failed: [fetch] rejected, or the response is not ok. *)
Definition failed (fetched : result response) : bool :=
  match fetched with
  | Ok r => negb (ok r)
  | Throw _ => true
  end.

End Trace.
Export Trace.


(* ================================================================== *)
(** ** Conditions and concrete runs used in the statements *)
(* ================================================================== *)

Module Conditions.

(** A failed attempt whose error message can be relied on: a rejection of
    [fetch] or of [response.json()] carries a message, and the error
    body's [error.message], when the body parses, is not an array. *)
Definition plain_failure (fetched : result response) : bool :=
  match fetched with
  | Throw e => negb (String.eqb (message e) "")
  | Ok r =>
      match json r with
      | Throw e => negb (String.eqb (message e) "")
      | Ok errData =>
          match opt_get (opt_get errData "error") "message" with
          | JArr _ => false
          | _ => true
          end
      end
  end.

(** The clock does not run backwards between two readings. *)
Definition clock_monotone (now : nat -> Z) : Prop := forall k, now k <= now (S k).

Fixpoint all_chars (p : ascii -> bool) (s : string) : bool :=
  match s with
  | EmptyString => true
  | String c s' => p c && all_chars p s'
  end.

(** A numbered-list marker: one or more digits, a period, one or more
    whitespace characters. *)
Definition is_marker (m : string) : Prop :=
  exists ds ws,
    m = ds ++ "." ++ ws
    /\ ds <> "" /\ ws <> ""
    /\ all_chars is_digit ds = true /\ all_chars is_space ws = true.

(** No part of [f] is a marker. *)
Definition marker_free (f : string) : Prop :=
  forall a m b, f = a ++ m ++ b -> ~ is_marker m.

(** Fragments put back around the separators that stood between them. *)
Fixpoint weave (frags markers : list string) : string :=
  match frags with
  | [] => ""
  | f :: fs =>
      match markers with
      | [] => f
      | m :: ms => f ++ m ++ weave fs ms
      end
  end.

End Conditions.
Export Conditions.

Module Examples.

Definition a_request : request :=
  {| url := "https://example.test/generate"; headers := json_headers; payload := JObj [] |}.

(** [{ "error": { "message": m } }]. *)
Definition error_body (m : jsval) : jsval := JObj [("error", JObj [("message", m)])].

Definition answer (code : Z) (body : jsval) : result response :=
  Ok {| status := code; json := Ok body |}.

(** A 500 with a message, then a 200. *)
Definition fetch_500_then_200 (k : nat) : result response :=
  match k with
  | O => answer 500 (error_body (JStr "boom"))
  | S _ => answer 200 (JStr "done")
  end.

(** Two 429s, then a 200. *)
Definition fetch_429_429_200 (k : nat) : result response :=
  match k with
  | O | S O => answer 429 JNull
  | S (S _) => answer 200 (JStr "done")
  end.

(** Always a 500 whose [error.message] is the empty array. *)
Definition fetch_500_empty_array (k : nat) : result response :=
  answer 500 (error_body (JArr [])).

(** Always a 503 with a message. *)
Definition fetch_503 (k : nat) : result response :=
  answer 503 (error_body (JStr "unavailable")).

(** Every call to [fetch] is rejected. *)
Definition fetch_offline (k : nat) : result response :=
  Throw (TypeError "Failed to fetch").

Definition nl : string := String "010"%char "".

(** The text ["1. Alpha\n2. Beta\n3. "]. *)
Definition alpha_beta_text : string := "1. Alpha" ++ nl ++ "2. Beta" ++ nl ++ "3. ".

(** [{ predictions: [{ bytesBase64Encoded: "QUJD" }] }]. *)
Definition qujd_result : jsval :=
  JObj [("predictions", JArr [JObj [("bytesBase64Encoded", JStr "QUJD")]])].

Definition fetch_qujd (k : nat) : result response := answer 200 qujd_result.

Definition alpha : concept := {| id := 1700000000000; text := "Alpha"; imageUrl := None |}.
Definition beta : concept := {| id := 1700000000001; text := "Beta"; imageUrl := None |}.

(** A session with two concepts on screen and nothing in flight. *)
Definition session (brief : string) : state :=
  {| apiKey := "key"; brief := brief; creativity := 70;
     concepts := [alpha; beta];
     isLoadingIdeas := false; loadingImageId := None; error := None |}.

Definition steady_clock (k : nat) : Z := 1700000000000.


Definition offline : App.world := {| fetch := fetch_offline; now := steady_clock |}.

(** The provider answers every image call with the QUJD payload. *)
Definition online : App.world := {| fetch := fetch_qujd; now := steady_clock |}.

(** A proxy whose credentials and provider are in order. *)
Definition proxy_online : Proxy.world :=
  {| Proxy.getClient := Ok tt;
     Proxy.getAccessToken := Ok (JObj [("token", JStr "ya29.token")]);
     Proxy.upstream := answer 200 qujd_result |}.

End Examples.
Export Examples.

(* ================================================================== *)
(** ** More ways to read a trace *)
(* ================================================================== *)

Module Measures.

(** The milliseconds a trace spends in [setTimeout]. *)
Fixpoint total_wait (evs : list event) : Z :=
  match evs with
  | [] => 0
  | EvSleep ms :: rest => ms + total_wait rest
  | _ :: rest => total_wait rest
  end.

(** Every event is a call to [fetch] with the request [req] or a wait. *)
Definition only_fetches_of (req : request) (evs : list event) : Prop :=
  Forall (fun ev => match ev with
                    | EvFetch r => r = req
                    | EvSleep _ => True
                    | _ => False
                    end) evs.

(** The answer of attempt [k] is a 429. *)
Definition rate_limited (fetched : result response) : bool :=
  match fetched with
  | Ok r => status r =? 429
  | Throw _ => false
  end.

End Measures.
Export Measures.

(* ================================================================== *)
(** ** Ends of strings, and texts cut by markers *)
(* ================================================================== *)

Module Edges.

(** The first character of [s] satisfies [p]. *)
Definition starts_with (p : ascii -> bool) (s : string) : bool :=
  match s with
  | String c _ => p c
  | EmptyString => false
  end.

(** The last character of [s] satisfies [p]. *)
Fixpoint ends_with (p : ascii -> bool) (s : string) : bool :=
  match s with
  | EmptyString => false
  | String c EmptyString => p c
  | String _ s' => ends_with p s'
  end.

(** The pattern matches at no position of [s]. *)
Fixpoint no_marker_in (s : string) : bool :=
  match match_marker s with
  | Some (S _) => false
  | _ =>
      match s with
      | EmptyString => true
      | String _ s' => no_marker_in s'
      end
  end.

(** Fragments that a split gives back as they are: none has a marker
    inside; none but the last ends with a digit (the digits would join
    the marker that follows); none but the first starts with whitespace
    (the marker before it would take it). *)
Definition well_cut (frags : list string) : Prop :=
  Forall marker_free frags
  /\ Forall (fun f => ends_with is_digit f = false) (removelast frags)
  /\ Forall (fun f => starts_with is_space f = false) (tl frags).

(** [t] is [f] without the whitespace at its two ends: [f] is [t] between
    two runs of whitespace, and [t] neither starts nor ends with
    whitespace. *)
Definition trimmed_of (f t : string) : Prop :=
  (exists a b, f = a ++ t ++ b
               /\ all_chars is_space a = true /\ all_chars is_space b = true)
  /\ starts_with is_space t = false
  /\ ends_with is_space t = false.

End Edges.
Export Edges.

(* ================================================================== *)
(** ** What the page shows, and the session as a transition system *)
(* ================================================================== *)

Module View.

(** The test of [concepts.filter(c => c.imageUrl)]: the image field is
    truthy. *)
Definition has_image (c : concept) : bool :=
  match imageUrl c with
  | Some u => truthy (JStr u)
  | None => false
  end.

(** The concepts the "Visual Prototypes" section renders a card for. *)
Definition visual_prototypes (s : state) : list concept := filter has_image (concepts s).

(** [s.split('\n')[0]]: the text before the first line feed. *)
Fixpoint first_line (s : string) : string :=
  match s with
  | EmptyString => EmptyString
  | String c s' => if Ascii.eqb c "010" then EmptyString else String c (first_line s')
  end.

(** The heading of a [VisualCard]: [concept.text.split('\n')[0]]. *)
Definition title (c : concept) : string := first_line (text c).

(** [disabled={loadingImageId !== null}] on the button of every
    [ConceptCard]. *)
Definition visualize_disabled (s : state) : bool :=
  match loadingImageId s with
  | Some _ => true
  | None => false
  end.

(** [{error && ...}]: the error box is rendered when [error] is truthy. *)
Definition error_shown (s : state) : bool :=
  match error s with
  | Some m => truthy (JStr m)
  | None => false
  end.

End View.
Export View.

Module Page.

Definition setBrief (v : string) (s : state) : state :=
  {| apiKey := apiKey s; brief := v; creativity := creativity s;
     concepts := concepts s;
     isLoadingIdeas := isLoadingIdeas s; loadingImageId := loadingImageId s;
     error := error s |}.

Definition setApiKey (v : string) (s : state) : state :=
  {| apiKey := v; brief := brief s; creativity := creativity s;
     concepts := concepts s;
     isLoadingIdeas := isLoadingIdeas s; loadingImageId := loadingImageId s;
     error := error s |}.

Definition setCreativity (v : Z) (s : state) : state :=
  {| apiKey := apiKey s; brief := brief s; creativity := v;
     concepts := concepts s;
     isLoadingIdeas := isLoadingIdeas s; loadingImageId := loadingImageId s;
     error := error s |}.

Definition quoted (s : string) : string := String "034" (s ++ String "034" "").

(** The initial value of [brief]. *)
Definition default_brief : string :=
  "Client: " ++ quoted "Aqua Pura"
  ++ " - a new premium bottled water brand. Target Audience: Health-conscious millennials (25-40). Core Challenge: Differentiate in a saturated market. Key Message: "
  ++ quoted "Experience purity in every drop."
  ++ " Mandatories: Must feature natural elements, convey a sense of calm and refreshment. Budget: High-end campaign.".

(** The arguments of the seven [useState] calls. *)
Definition initial : state :=
  {| apiKey := ""; brief := default_brief; creativity := 70;
     concepts := [];
     isLoadingIdeas := false; loadingImageId := None; error := None |}.

(** The part of [generateIdeas] that runs, for a brief that is not empty,
    before the request is awaited, and the same for [visualizeConcept]. *)
Definition generateIdeas_begin (s : state) : state :=
  setConcepts (fun _ => []) (setError None (setIsLoadingIdeas true s)).

Definition visualizeConcept_begin (conceptId : Z) (s : state) : state :=
  setError None (setLoadingImageId (Some conceptId) s).

(** The page between two events: the state cells, and the requests
    that were started and have not settled yet (how many for ideas, for
    which concepts for images). *)
Record page : Type := {
  ui : state;
  ideas_pending : nat;
  images_pending : list Z
}.

Definition start : page :=
  {| ui := initial; ideas_pending := O; images_pending := [] |}.

(** What can happen to the page: a click on "Generate Ideas", on the
    "Visualize" button of the [n]-th concept card, on the cross of the
    error box; typing in the brief or the key, moving the slider; and a
    pending request settling, with the clock and the outcome of
    [fetchWithBackoff] it settles with. *)
Inductive input : Type :=
| ClickGenerate
| ClickVisualize (n : nat)
| DismissError
| TypeBrief (v : string)
| TypeApiKey (v : string)
| MoveSlider (v : Z)
| IdeasSettled (now : nat -> Z) (fetched : result jsval)
| ImageSettled (conceptId : Z) (fetched : result jsval).

Definition with_ui (x : page) (s : state) : page :=
  {| ui := s; ideas_pending := ideas_pending x; images_pending := images_pending x |}.

(** One event.  A disabled button does nothing; a settlement for which
    nothing is pending does not occur. *)
Definition step (x : page) (i : input) : page :=
  let s := ui x in
  match i with
  | ClickGenerate =>
      if generate_disabled s then x
      else if negb (truthy (JStr (brief s))) then
        with_ui x (setError (Some "Please enter a creative brief.") s)
      else
        {| ui := generateIdeas_begin s;
           ideas_pending := S (ideas_pending x);
           images_pending := images_pending x |}
  | ClickVisualize n =>
      match nth_error (concepts s) n with
      | Some c =>
          if visualize_disabled s then x
          else
            {| ui := visualizeConcept_begin (id c) s;
               ideas_pending := ideas_pending x;
               images_pending := id c :: images_pending x |}
      | None => x
      end
  | DismissError => with_ui x (setError None s)
  | TypeBrief v => with_ui x (setBrief v s)
  | TypeApiKey v => with_ui x (setApiKey v s)
  | MoveSlider v => with_ui x (setCreativity v s)
  | IdeasSettled now fetched =>
      match ideas_pending x with
      | S k =>
          {| ui := fst (generateIdeas_settle now fetched s);
             ideas_pending := k;
             images_pending := images_pending x |}
      | O => x
      end
  | ImageSettled conceptId fetched =>
      if existsb (Z.eqb conceptId) (images_pending x) then
        {| ui := fst (visualizeConcept_settle conceptId fetched s);
           ideas_pending := ideas_pending x;
           images_pending := filter (fun i => negb (conceptId =? i)) (images_pending x) |}
      else x
  end.

Definition after (inputs : list input) : page := fold_left step inputs start.

(** The clock of every settlement of ideas does not run backwards. *)
Definition clocks_monotone (inputs : list input) : Prop :=
  Forall (fun i => match i with
                   | IdeasSettled now _ => clock_monotone now
                   | _ => True
                   end) inputs.

(** The loading indicators say exactly what is pending. *)
Definition flags_match (x : page) : Prop :=
  ideas_pending x = (if isLoadingIdeas (ui x) then 1 else 0)%nat
  /\ images_pending x = match loadingImageId (ui x) with
                        | Some i => [i]
                        | None => []
                        end.

(** What the page can rely on in its state: identifiers are distinct;
    every concept has a text and a heading that are not empty; an image
    that is stored is one the page shows; an error that is set is one the
    page shows. *)
Definition content_ok (s : state) : Prop :=
  NoDup (map id (concepts s))
  /\ Forall (fun c => text c <> "" /\ title c <> ""
                      /\ (imageUrl c = None \/ has_image c = true)) (concepts s)
  /\ (error s = None \/ error_shown s = true).

End Page.

(* ================================================================== *)
(** ** More concrete worlds *)
(* ================================================================== *)

Module Worlds.

(** Every answer is a 429. *)
Definition fetch_429 (k : nat) : result response := answer 429 JNull.

(** A 429, then a 200 whose body is not JSON. *)
Definition not_json : exn := MkExn "SyntaxError" "Unexpected token < in JSON at position 0".

Definition page_200 : response := {| status := 200; json := Throw not_json |}.

Definition fetch_429_then_page (k : nat) : result response :=
  match k with
  | O => answer 429 JNull
  | S _ => Ok page_200
  end.

Definition unavailable : response :=
  {| status := 503; json := Ok (error_body (JStr "unavailable")) |}.

Definition world_503 : App.world := {| fetch := fetch_503; now := steady_clock |}.

(** The provider answers 200 with an empty object. *)
Definition world_empty_object : App.world :=
  {| fetch := fun _ => answer 200 (JObj []); now := steady_clock |}.

(** A text response that carries the list of two items. *)
Definition ideas_result : jsval :=
  JObj [("candidates",
         JArr [JObj [("content",
                      JObj [("parts", JArr [JObj [("text", JStr alpha_beta_text)]])])]])].

Definition cat_props : list (string * jsval) := [("prompt", JStr "a cat")].

Definition token_object : jsval := JObj [("token", JStr "ya29.token")].

Definition no_credentials : exn := Error "Could not load the default credentials.".

Definition proxy_no_credentials : Proxy.world :=
  {| Proxy.getClient := Throw no_credentials;
     Proxy.getAccessToken := Ok token_object;
     Proxy.upstream := answer 200 qujd_result |}.

Definition quota : response :=
  {| status := 429; json := Ok (error_body (JStr "Quota exceeded")) |}.

Definition proxy_rate_limited : Proxy.world :=
  {| Proxy.getClient := Ok tt;
     Proxy.getAccessToken := Ok token_object;
     Proxy.upstream := Ok quota |}.

(** A short session: a key is typed, ideas are generated and arrive, the
    first concept is visualized and its image arrives. *)
Definition a_session : list Page.input :=
  [Page.TypeApiKey "key";
   Page.ClickGenerate;
   Page.IdeasSettled steady_clock (Ok ideas_result);
   Page.ClickVisualize 0;
   Page.ImageSettled 1700000000000 (Ok qujd_result)].

End Worlds.
Export Worlds.

(* ================================================================== *)
(** ** The JavaScript model on known values *)
(* ================================================================== *)

Example split_alpha_beta :
  split_marker alpha_beta_text = [""; "Alpha" ++ nl; "Beta" ++ nl; ""].
Proof. reflexivity. Qed.

Example split_no_marker : split_marker "version 1.5 of 2.x" = ["version 1.5 of 2.x"].
Proof. reflexivity. Qed.

Example split_long_marker : split_marker "a 12.   b" = ["a "; "b"].
Proof. reflexivity. Qed.

Example split_empty : split_marker "" = [""].
Proof. reflexivity. Qed.

Example trim_both_ends : trim ("  a b " ++ nl) = "a b".
Proof. reflexivity. Qed.

Example to_string_values :
  map to_string [JArr []; JArr [JNull; JNum 3; JArr [JStr "a"; JBool true]];
                 JNum (-12); JObj []; JUndefined]
    = [""; ",3,a,true"; "-12"; "[object Object]"; "undefined"].
Proof. reflexivity. Qed.

Example string_of_Z_values :
  map string_of_Z [0; 429; -12; 2 ^ 53; 2 ^ 53 + 1; 2 ^ 60; 123456789012345678901;
                   10 ^ 21 - 1; 10 ^ 21; 2 ^ 70; 15 * 10 ^ 21; - 10 ^ 23; 10 ^ 400]
    = ["0"; "429"; "-12"; "9007199254740992"; "9007199254740992";
       "1152921504606847000"; "123456789012345680000";
       "1e+21"; "1e+21"; "1.1805916207174113e+21"; "1.5e+22"; "-1e+23"; "Infinity"].
Proof. vm_compute. reflexivity. Qed.

Example ToString_values :
  map ToString [JObj [("toString", JNum 1)]; JArr [JObj [("toString", JNull)]];
                JObj [("valueOf", JNum 1)]; JArr [JNull; JObj []]; JNum (10 ^ 21)]
    = [Throw cannot_convert; Throw cannot_convert;
       Ok "[object Object]"; Ok ",[object Object]"; Ok "1e+21"].
Proof. vm_compute. reflexivity. Qed.

Example new_Error_values :
  map new_Error [JUndefined; JArr []; JStr "boom"; JObj [("toString", JStr "x")]]
    = [Ok (Error ""); Ok (Error ""); Ok (Error "boom"); Throw cannot_convert].
Proof. reflexivity. Qed.

Example string_gt_zero_numbers :
  map string_gt_zero ["1e3"; " 12 "; "0x10"; "1.5"; ".5"; "5."; "5.e3"; "+0.001";
                      "Infinity"; "+Infinity"; "0b101"; "00012"; "4e-324"; "3e-324"]
    = [true; true; true; true; true; true; true; true;
       true; true; true; true; true; true].
Proof. vm_compute. reflexivity. Qed.

Example string_gt_zero_others :
  map string_gt_zero [""; "  "; "0"; "0.0"; "-3"; "."; "1e"; "0x"; "0x0"; "+0x10"; "0o8";
                      "1_0"; "infinity"; "abc"; "1e-400"; "2e-324"; "12px"]
    = [false; false; false; false; false; false; false; false; false; false; false;
       false; false; false; false; false; false].
Proof. vm_compute. reflexivity. Qed.

Example gt_zero_values :
  map gt_zero [JNum 1; JNum 0; JStr "1e3"; JBool true; JNull; JArr [JNum 3]; JArr [];
               JObj []; JObj [("toString", JNum 1)]]
    = [Ok true; Ok false; Ok true; Ok true; Ok false; Ok true; Ok false;
       Ok false; Throw cannot_convert].
Proof. vm_compute. reflexivity. Qed.

(** A result whose [predictions] is not an array but has a numeric
    string for [length] and an entry [0]. *)
Example imageUrl_of_array_like :
  imageUrl_of_result
    (Ok (JObj [("predictions",
                JObj [("length", JStr "1e3");
                      ("0", JObj [("bytesBase64Encoded", JStr "QUJD")])])]))
    = Ok "data:image/png;base64,QUJD".
Proof. vm_compute. reflexivity. Qed.

Example truthy_values :
  map truthy [JArr []; JObj []; JStr ""; JStr "0"; JNum 0; JNull; JUndefined]
    = [true; true; false; true; false; false; false].
Proof. reflexivity. Qed.

Example optional_chain_on_null : candidate_text JNull = JUndefined.
Proof. reflexivity. Qed.

Example candidate_text_found :
  candidate_text
    (JObj [("candidates",
            JArr [JObj [("content", JObj [("parts", JArr [JObj [("text", JStr "1. A")]])])]])])
    = JStr "1. A".
Proof. reflexivity. Qed.

Example imageUrl_of_null_entry :
  imageUrl_of_result (Ok (JObj [("predictions", JArr [JNull])]))
    = Throw (TypeError "Cannot read properties of null (reading 'bytesBase64Encoded')").
Proof. reflexivity. Qed.

Example imageUrl_of_empty_list :
  imageUrl_of_result (Ok (JObj [("predictions", JArr [])])) = Throw no_image_data.
Proof. reflexivity. Qed.
(* ================================================================== *)
(** ** Facts about [fetchWithBackoff] *)
(* ================================================================== *)

Section BackoffFacts.

Variable fetch : nat -> result response.
Variable req : request.
Variable maxRetries : Z.


Lemma attempts_S n i delay :
  attempts fetch req maxRetries (S n) i delay =
    (let next :=
       let (r, evs) := attempts fetch req maxRetries n (i + 1) (delay * 2) in
       (r, EvSleep delay :: evs) in
     let (r, evs) :=
       match attempt (fetch (Z.to_nat i)) with
       | Ok (Returned p) => (p, [])
       | Ok RateLimited => next
       | Throw e => if i =? maxRetries - 1 then (Throw e, []) else next
       end in
     (r, EvFetch req :: evs)).
Proof. reflexivity. Qed.

(** Every iteration starts with a call to [fetch]. *)
Lemma attempts_head n i delay :
  exists r evs, attempts fetch req maxRetries (S n) i delay = (r, EvFetch req :: evs).
Proof.
  rewrite attempts_S. cbv zeta.
  destruct (match attempt (fetch (Z.to_nat i)) with
            | Ok (Returned p) => (p, [])
            | Ok RateLimited =>
                let (r, evs) := attempts fetch req maxRetries n (i + 1) (delay * 2) in (r, EvSleep delay :: evs)
            | Throw e =>
                if i =? maxRetries - 1 then (Throw e, [])
                else let (r, evs) := attempts fetch req maxRetries n (i + 1) (delay * 2) in
                     (r, EvSleep delay :: evs)
            end) as [r evs].
  now exists r, evs.
Qed.

(** An attempt that is retried costs one fetch and one wait, and the loop
    goes on with the delay doubled. *)
Lemma attempts_retried n i delay :
  0 <= i ->
  retried fetch maxRetries (Z.to_nat i) = true ->
  attempts fetch req maxRetries (S n) i delay =
    (fst (attempts fetch req maxRetries n (i + 1) (delay * 2)),
     EvFetch req :: EvSleep delay :: snd (attempts fetch req maxRetries n (i + 1) (delay * 2))).
Proof.
  intros Hi Hr. rewrite attempts_S. unfold retried in Hr.
  rewrite Z2Nat.id in Hr by assumption.
  destruct (attempt (fetch (Z.to_nat i))) as [[p|]|e]; try discriminate.
  - cbv zeta. destruct (attempts fetch req maxRetries n (i + 1) (delay * 2)); reflexivity.
  - apply negb_true_iff in Hr. rewrite Hr. cbv zeta.
    destruct (attempts fetch req maxRetries n (i + 1) (delay * 2)); reflexivity.
Qed.

(** After [m] retried attempts the loop stands at iteration [i + m] with
    the delay doubled [m] times, and the trace so far is the schedule. *)
Lemma attempts_resume m : forall n i delay,
  0 <= i ->
  (forall k, (k < m)%nat -> retried fetch maxRetries (Z.to_nat i + k) = true) ->
  attempts fetch req maxRetries (m + n) i delay =
    (fst (attempts fetch req maxRetries n (i + Z.of_nat m) (delay * 2 ^ Z.of_nat m)),
     (backoff_prefix req delay m
        ++ snd (attempts fetch req maxRetries n (i + Z.of_nat m) (delay * 2 ^ Z.of_nat m)))%list).
Proof.
  induction m as [|m IH]; intros n i delay Hi Hr.
  - cbn [Nat.add backoff_prefix app Z.of_nat]. rewrite Z.add_0_r, Z.pow_0_r, Z.mul_1_r.
    destruct (attempts fetch req maxRetries n i delay); reflexivity.
  - cbn [Nat.add]. rewrite attempts_retried; [| assumption |].
    2:{ specialize (Hr O ltac:(lia)). now rewrite Nat.add_0_r in Hr. }
    rewrite IH; [| lia |].
    2:{ intros k Hk. specialize (Hr (S k) ltac:(lia)).
        replace (Z.to_nat (i + 1) + k)%nat with (Z.to_nat i + S k)%nat by lia.
        exact Hr. }
    cbn [fst snd backoff_prefix app].
    replace (i + 1 + Z.of_nat m) with (i + Z.of_nat (S m)) by lia.
    replace (delay * 2 * 2 ^ Z.of_nat m) with (delay * 2 ^ Z.of_nat (S m)).
    + reflexivity.
    + rewrite Nat2Z.inj_succ, Z.pow_succ_r by lia. ring.
Qed.

(** The whole invocation, once its first [m] attempts were retried. *)
Lemma fetchWithBackoff_resume (m : nat) :
  Z.of_nat m <= maxRetries ->
  (forall k, (k < m)%nat -> retried fetch maxRetries k = true) ->
  fetchWithBackoff fetch req maxRetries =
    (fst (attempts fetch req maxRetries (Z.to_nat maxRetries - m) (Z.of_nat m) (1000 * 2 ^ Z.of_nat m)),
     (backoff_prefix req 1000 m
        ++ snd (attempts fetch req maxRetries (Z.to_nat maxRetries - m) (Z.of_nat m) (1000 * 2 ^ Z.of_nat m)))%list).
Proof.
  intros Hm Hr. unfold fetchWithBackoff.
  replace (Z.to_nat maxRetries) with (m + (Z.to_nat maxRetries - m))%nat at 1 by lia.
  rewrite (attempts_resume m); [reflexivity | lia |].
  intros k Hk. cbn. now apply Hr.
Qed.

End BackoffFacts.

(* ================================================================== *)
(** ** The backoff schedule and the success after rate limiting *)
(* ================================================================== *)

Section Schedule.

Variable fetch : nat -> result response.
Variable req : request.
Variable maxRetries : Z.

(** One iteration leaves a fetch alone (it returned, or threw on the last
    iteration) or a fetch, the wait and the rest of the loop. *)
Lemma attempts_trace_cases n i delay :
  snd (attempts fetch req maxRetries (S n) i delay) = [EvFetch req]
  \/ snd (attempts fetch req maxRetries (S n) i delay)
     = EvFetch req :: EvSleep delay
         :: snd (attempts fetch req maxRetries n (i + 1) (delay * 2)).
Proof.
  rewrite attempts_S.
  destruct (attempt (fetch (Z.to_nat i))) as [[p|]|e]; cbv zeta.
  - now left.
  - right. now destruct (attempts fetch req maxRetries n (i + 1) (delay * 2)).
  - destruct (i =? maxRetries - 1); [now left|].
    right. now destruct (attempts fetch req maxRetries n (i + 1) (delay * 2)).
Qed.

Lemma count_fetches_cons_fetch r evs :
  count_fetches (EvFetch r :: evs) = S (count_fetches evs).
Proof. reflexivity. Qed.

Lemma count_fetches_cons_sleep d evs :
  count_fetches (EvSleep d :: evs) = count_fetches evs.
Proof. reflexivity. Qed.

Lemma attempts_wait_before_fetch n : forall i delay before r after,
  snd (attempts fetch req maxRetries n i delay) = (before ++ EvFetch r :: after)%list ->
  before = []
  \/ exists before',
       before = (before' ++ [EvSleep (delay * 2 ^ (Z.of_nat (count_fetches before') - 1))])%list
       /\ (1 <= count_fetches before')%nat.
Proof.
  induction n as [|n IH]; intros i delay before r after H.
  - cbn in H. now destruct before.
  - destruct before as [|b0 before]; [now left|right].
    destruct (attempts_trace_cases n i delay) as [E|E]; rewrite E in H; clear E.
    + injection H as _ H. now destruct before.
    + injection H as <- H.
      destruct before as [|b1 before]; [discriminate|].
      injection H as <- H.
      apply IH in H. destruct H as [-> | [before' [-> Hc]]].
      * exists [EvFetch req]. cbn. split; [|lia]. now rewrite Z.mul_1_r.
      * exists (EvFetch req :: EvSleep delay :: before').
        rewrite count_fetches_cons_fetch, count_fetches_cons_sleep.
        split; [|lia]. cbn [app]. do 2 f_equal. f_equal. do 2 f_equal.
        replace (Z.of_nat (S (count_fetches before')) - 1)
          with (Z.succ (Z.of_nat (count_fetches before') - 1)) by lia.
        rewrite Z.pow_succ_r by lia. ring.
Qed.

(** C4. In the trace of any invocation, a call to [fetch] that is not the
    first one is retry attempt [k], where [k >= 1] is the number of calls
    before it, and the event just before it is the wait of
    [1000 * 2^(k-1)] milliseconds: 1 s before the first retry, then 2 s,
    4 s and so on, from 1 s again in each invocation and with no upper
    limit other than the number of attempts. *)
Theorem fetchWithBackoff_delay_before_retry before r after :
  snd (fetchWithBackoff fetch req maxRetries) = (before ++ EvFetch r :: after)%list ->
  before <> [] ->
  exists before',
    before = (before' ++ [EvSleep (1000 * 2 ^ (Z.of_nat (count_fetches before') - 1))])%list
    /\ (1 <= count_fetches before')%nat.
Proof.
  intros H Hne. apply attempts_wait_before_fetch in H.
  destruct H as [H|H]; [contradiction | exact H].
Qed.

(** An answer 429 takes the branch that waits and goes round. *)
Lemma attempt_429 r : status r = 429 -> attempt (Ok r) = Ok RateLimited.
Proof.
  intros H. unfold attempt, ok. cbn. now rewrite H.
Qed.

(** C3. When the first [n] answers are 429, the next one is a 2xx whose
    body parses to [body], and it comes within the budget
    ([n < maxRetries], so up to four 429s for the default of 5), the
    invocation returns [body]; its trace is the [n] rate-limited attempts
    with their waits and the successful fetch. *)
Theorem fetchWithBackoff_429_then_ok (n : nat) (resp : response) (body : jsval) :
  Z.of_nat n < maxRetries ->
  (forall k, (k < n)%nat -> exists r, fetch k = Ok r /\ status r = 429) ->
  fetch n = Ok resp ->
  ok resp = true ->
  json resp = Ok body ->
  fetchWithBackoff fetch req maxRetries
    = (Ok body, (backoff_prefix req 1000 n ++ [EvFetch req])%list).
Proof.
  intros Hn H429 Hresp Hok Hbody.
  rewrite (fetchWithBackoff_resume fetch req maxRetries n); [| lia |].
  2:{ intros k Hk. destruct (H429 k Hk) as [r [E Es]].
      unfold retried. now rewrite E, attempt_429. }
  replace (Z.to_nat maxRetries - n)%nat with (S (Z.to_nat maxRetries - n - 1))%nat by lia.
  rewrite attempts_S, Nat2Z.id, Hresp. unfold attempt. cbn [bind].
  rewrite Hok, Hbody. reflexivity.
Qed.

End Schedule.

(* ================================================================== *)
(** ** Failures: what is retried and how an invocation fails *)
(* ================================================================== *)

Lemma decimal_nonempty m : decimal m <> "".
Proof.
  unfold decimal. destruct (Z.to_int m) as [d|d]; [|discriminate].
  destruct d; discriminate.
Qed.

Lemma string_of_pos_nonempty m : string_of_pos m <> "".
Proof.
  unfold string_of_pos.
  destruct (nearest_double m <? 2 ^ 53); [apply decimal_nonempty|].
  destruct (2 ^ 1024 <=? nearest_double m); [discriminate|].
  set (digits := decimal _).
  assert (Hd : digits <> "") by apply decimal_nonempty.
  destruct (String.length digits <=? 21)%nat; [exact Hd|].
  destruct digits; [contradiction | discriminate].
Qed.

Lemma string_of_Z_nonempty n : string_of_Z n <> "".
Proof.
  unfold string_of_Z. destruct (n <? 0); [discriminate | apply string_of_pos_nonempty].
Qed.

(** A truthy value that is not an array has a non-empty string form. *)
Lemma to_string_truthy_nonempty v :
  truthy v = true ->
  match v with JArr _ => False | _ => True end ->
  to_string v <> "".
Proof.
  destruct v as [| |[|]|n|s|items|props]; cbn [truthy to_string]; intros Ht Ha;
    try discriminate; try contradiction.
  - apply string_of_Z_nonempty.
  - intros ->. discriminate.
Qed.

(** The error made from a message and its fallback: the message when it
    is truthy, converted to a string, which throws when it cannot be
    converted; the fallback otherwise. *)
Lemma new_Error_js_or said fallback :
  new_Error (js_or said (JStr fallback))
  = if truthy said
    then if convertible said then Ok (Error (to_string said)) else Throw cannot_convert
    else Ok (Error fallback).
Proof.
  unfold js_or. destruct (truthy said) eqn:Et; [|reflexivity].
  unfold new_Error, ToString.
  destruct said; try discriminate; destruct (convertible _); reflexivity.
Qed.

(** What cannot be converted is an object or an array, which is truthy. *)
Lemma inconvertible_truthy v : convertible v = false -> truthy v = true.
Proof. destruct v; cbn [convertible]; try discriminate; reflexivity. Qed.

(** The attempt on a response that is not ok, not a 429, and whose body
    parses to something other than [null]. *)
Lemma attempt_error_body r errData :
  ok r = false -> status r <> 429 -> json r = Ok errData -> nullish errData = false ->
  attempt (Ok r)
  = (error <- new_Error (js_or (opt_get (opt_get errData "error") "message")
                               (JStr ("HTTP error! status: " ++ string_of_Z (status r)))) ;;
     Throw error).
Proof.
  intros Hok H429 Hj Hn. unfold attempt. cbn [bind]. rewrite Hok, Hj.
  destruct (Z.eqb_spec (status r) 429); [contradiction|]. cbn [bind].
  unfold opt_get at 2. destruct errData; try discriminate; reflexivity.
Qed.

(** What that attempt throws. *)
Lemma attempt_error_body_thrown r errData e :
  ok r = false -> status r <> 429 -> json r = Ok errData -> nullish errData = false ->
  attempt (Ok r) = Throw e ->
  let said := opt_get (opt_get errData "error") "message" in
  (truthy said = false -> e = Error ("HTTP error! status: " ++ string_of_Z (status r)))
  /\ (truthy said = true -> convertible said = true -> e = Error (to_string said))
  /\ (convertible said = false -> e = cannot_convert).
Proof.
  intros Hok H429 Hj Hn He said. subst said.
  rewrite (attempt_error_body r errData Hok H429 Hj Hn), new_Error_js_or in He.
  destruct (truthy (opt_get (opt_get errData "error") "message")) eqn:Et.
  - destruct (convertible (opt_get (opt_get errData "error") "message")) eqn:Ec;
      cbn [bind] in He; injection He as <-;
      repeat split; intros; try reflexivity; discriminate.
  - cbn [bind] in He. injection He as <-. repeat split; intros; try reflexivity; try discriminate.
    apply inconvertible_truthy in H. rewrite H in Et. discriminate.
Qed.

(** A failed attempt is rate limited or throws inside the [try] block; it
    never returns. *)
Lemma attempt_failed fetched :
  failed fetched = true ->
  attempt fetched = Ok RateLimited \/ exists e, attempt fetched = Throw e.
Proof.
  destruct fetched as [r|e]; cbn; [|eauto].
  intros H. apply negb_true_iff in H. rewrite H.
  destruct (status r =? 429); [now left|right].
  destruct (json r) as [errData|e]; cbn [bind]; [|eauto].
  destruct (get errData "error"); cbn [bind]; [|eauto].
  destruct (new_Error _); cbn [bind]; eauto.
Qed.

(** The message of an exception thrown by a failed attempt. *)
Lemma attempt_throw_message fetched e :
  plain_failure fetched = true ->
  attempt fetched = Throw e ->
  message e <> "".
Proof.
  destruct fetched as [r|e0]; cbn [plain_failure attempt bind].
  - destruct (ok r); [discriminate|].
    destruct (status r =? 429); [discriminate|].
    destruct (json r) as [errData|e0]; cbn [bind].
    + unfold opt_get at 2.
      destruct (get errData "error") as [err|e0] eqn:Eerr; cbn [bind].
      * rewrite new_Error_js_or. intros Hp.
        destruct (truthy (opt_get err "message")) eqn:Ht.
        -- destruct (convertible (opt_get err "message")); cbn [bind]; intros [= <-].
           ++ apply to_string_truthy_nonempty; [assumption|].
              destruct (opt_get err "message"); try exact I. discriminate.
           ++ discriminate.
        -- cbn [bind]. intros [= <-]. cbn. discriminate.
      * intros _ [= <-].
        destruct errData; cbn in Eerr; try discriminate;
          injection Eerr as <-; discriminate.
    + intros Hp [= <-]. apply negb_true_iff in Hp.
      intros E. rewrite E in Hp. discriminate.
  - intros Hp [= <-]. apply negb_true_iff in Hp.
    intros E. rewrite E in Hp. discriminate.
Qed.

Lemma count_fetches_backoff_prefix req delay m :
  count_fetches (backoff_prefix req delay m) = m.
Proof.
  revert delay. induction m as [|m IH]; intros delay; [reflexivity|].
  cbn [backoff_prefix]. unfold count_fetches in *. cbn. now rewrite IH.
Qed.

Lemma count_fetches_app evs evs' :
  count_fetches (evs ++ evs') = (count_fetches evs + count_fetches evs')%nat.
Proof. unfold count_fetches. now rewrite filter_app, length_app. Qed.

Section Failures.

Variable fetch : nat -> result response.
Variable req : request.
Variable maxRetries : Z.

(** C1, as the code has it. When the response of attempt [i] is not ok
    and its status is not 429, the [try] block throws.  What it throws:
    the rejection of [response.json()] when the error body does not
    parse; a [TypeError] when the body is [null] (reading [.error] of
    it); otherwise an [Error] whose message is the body's
    [error.message] converted to a string when that is truthy, a
    non-empty string in particular being the message as it is, and
    ["HTTP error! status: N"] when it is missing or falsy; and again a
    [TypeError] when [error.message] is truthy but has no string form.
    The exception ends the invocation only on the last attempt
    ([i = maxRetries - 1]); on an earlier attempt it is caught, the
    wrapper waits the current delay and calls [fetch] again. *)
Theorem non_429_failure_retried_unless_last (i : nat) (resp : response) :
  Z.of_nat i < maxRetries ->
  (forall k, (k < i)%nat -> retried fetch maxRetries k = true) ->
  fetch i = Ok resp ->
  ok resp = false ->
  status resp <> 429 ->
  exists e,
    attempt (fetch i) = Throw e
    /\ match json resp with
       | Throw rejection => e = rejection
       | Ok errData =>
           if nullish errData then exn_name e = "TypeError"
           else
             let said := opt_get (opt_get errData "error") "message" in
             (truthy said = false ->
              e = Error ("HTTP error! status: " ++ string_of_Z (status resp)))
             /\ (forall m, said = JStr m -> m <> "" -> e = Error m)
             /\ (truthy said = true -> convertible said = true ->
                 e = Error (to_string said))
             /\ (convertible said = false -> exn_name e = "TypeError")
       end
    /\ (Z.of_nat i = maxRetries - 1 ->
        fetchWithBackoff fetch req maxRetries
          = (Throw e, (backoff_prefix req 1000 i ++ [EvFetch req])%list))
    /\ (Z.of_nat i < maxRetries - 1 ->
        exists r evs,
          fetchWithBackoff fetch req maxRetries
            = (r, (backoff_prefix req 1000 (S i) ++ EvFetch req :: evs)%list)).
Proof.
  intros Hi Hprev Hresp Hok H429.
  assert (Hf : failed (fetch i) = true) by (rewrite Hresp; cbn; now rewrite Hok).
  assert (Hne : (status resp =? 429) = false) by now apply Z.eqb_neq.
  destruct (attempt_failed _ Hf) as [Hrl | [e He]].
  { exfalso. rewrite Hresp in Hrl. unfold attempt in Hrl. cbn [bind] in Hrl.
    rewrite Hok, Hne in Hrl.
    destruct (json resp) as [errData|]; cbn [bind] in Hrl; [|discriminate].
    destruct (get errData "error"); cbn [bind] in Hrl; [|discriminate].
    destruct (new_Error _); discriminate. }
  exists e. split; [exact He|]. split; [|split].
  - rewrite Hresp in He. destruct (json resp) as [errData|rejection] eqn:Hj.
    + destruct (nullish errData) eqn:Hn.
      * unfold attempt in He. cbn [bind] in He. rewrite Hok, Hne, Hj in He.
        destruct errData; try discriminate; cbn in He; now injection He as <-.
      * destruct (attempt_error_body_thrown resp errData e Hok H429 Hj Hn He)
          as (Hfalsy & Htruthy & Hthrow).
        cbv zeta. repeat split; try assumption.
        -- intros m Em Hm. rewrite Em in Htruthy. apply Htruthy; [|reflexivity].
           destruct m; [contradiction | reflexivity].
        -- intros Hc. now rewrite (Hthrow Hc).
    + unfold attempt in He. cbn [bind] in He. rewrite Hok, Hne, Hj in He.
      cbn [bind] in He. now injection He.
  - intros Hlast.
    rewrite (fetchWithBackoff_resume fetch req maxRetries i); [| lia | assumption].
    replace (Z.to_nat maxRetries - i)%nat with 1%nat by lia.
    rewrite attempts_S, Nat2Z.id, He, Hlast, Z.eqb_refl. reflexivity.
  - intros Hearly.
    rewrite (fetchWithBackoff_resume fetch req maxRetries (S i)); [| lia |].
    2:{ intros k Hk. destruct (Nat.eq_dec k i) as [->|Hne'].
        - unfold retried. rewrite He. apply negb_true_iff, Z.eqb_neq. lia.
        - apply Hprev. lia. }
    replace (Z.to_nat maxRetries - S i)%nat
      with (S (Z.to_nat maxRetries - S i - 1))%nat by lia.
    destruct (attempts_head fetch req maxRetries (Z.to_nat maxRetries - S i - 1)
                (Z.of_nat (S i)) (1000 * 2 ^ Z.of_nat (S i))) as [r [evs ->]].
    now exists r, evs.
Qed.

(** X24. When every one of the [maxRetries] attempts fails, the
    invocation fails after exactly [maxRetries] calls to [fetch]: with
    the generic error when the last attempt was answered 429 (or there
    was no attempt at all), and otherwise with the exception the last
    attempt threw. The message is not empty when the last failure is a
    plain one. *)
Theorem fetchWithBackoff_all_failed :
  (forall k, Z.of_nat k < maxRetries -> failed (fetch k) = true) ->
  exists e,
    fst (fetchWithBackoff fetch req maxRetries) = Throw e
    /\ count_fetches (snd (fetchWithBackoff fetch req maxRetries)) = Z.to_nat maxRetries
    /\ ((e = retries_exhausted
         /\ (maxRetries <= 0
             \/ attempt (fetch (Z.to_nat (maxRetries - 1))) = Ok RateLimited))
        \/ (0 < maxRetries
            /\ attempt (fetch (Z.to_nat (maxRetries - 1))) = Throw e))
    /\ (plain_failure (fetch (Z.to_nat (maxRetries - 1))) = true -> message e <> "").
Proof.
  intros Hall.
  destruct (Z.leb_spec maxRetries 0) as [Hle|Hpos].
  - exists retries_exhausted. unfold fetchWithBackoff.
    replace (Z.to_nat maxRetries) with O by lia. cbn.
    repeat split; [left; split; [reflexivity | now left] | discriminate].
  - set (p := Z.to_nat (maxRetries - 1)).
    assert (Hp : Z.of_nat p = maxRetries - 1) by (unfold p; lia).
    assert (Hretried : forall k, (k < p)%nat -> retried fetch maxRetries k = true).
    { intros k Hk. unfold retried.
      destruct (attempt_failed (fetch k)) as [-> | [e ->]];
        [apply Hall; lia | reflexivity |].
      apply negb_true_iff, Z.eqb_neq. lia. }
    rewrite (fetchWithBackoff_resume fetch req maxRetries p); [| lia | assumption].
    replace (Z.to_nat maxRetries - p)%nat with 1%nat by lia.
    rewrite attempts_S, Nat2Z.id, Hp, Z.eqb_refl.
    destruct (attempt_failed (fetch p)) as [Hrl | [e He]]; [apply Hall; lia | |].
    + rewrite Hrl. exists retries_exhausted. cbn [attempts fst snd].
      rewrite count_fetches_app, count_fetches_backoff_prefix.
      repeat split; [cbn; lia | left; split; [reflexivity | now right] | discriminate].
    + rewrite He. exists e. cbn [fst snd].
      rewrite count_fetches_app, count_fetches_backoff_prefix.
      repeat split; [cbn; lia | right; split; [lia | reflexivity] |].
      intros Hplain. eapply attempt_throw_message; eassumption.
Qed.

End Failures.

(* ================================================================== *)
(** ** Concrete runs of [fetchWithBackoff] *)
(* ================================================================== *)

Lemma fetchWithBackoff_429_then_ok_witness :
  fetchWithBackoff fetch_429_429_200 a_request default_maxRetries
    = (Ok (JStr "done"),
       [EvFetch a_request; EvSleep 1000; EvFetch a_request; EvSleep 2000;
        EvFetch a_request]).
Proof.
  apply (fetchWithBackoff_429_then_ok fetch_429_429_200 a_request default_maxRetries
           2 {| status := 200; json := Ok (JStr "done") |} (JStr "done")).
  - reflexivity.
  - intros k Hk. destruct k as [|[|k]].
    + eexists. split; reflexivity.
    + eexists. split; reflexivity.
    + lia.
  - reflexivity.
  - reflexivity.
  - reflexivity.
Defined.

Lemma fetchWithBackoff_delay_before_retry_witness :
  exists before',
    [EvFetch a_request; EvSleep 1000; EvFetch a_request; EvSleep 2000]
      = (before' ++ [EvSleep (1000 * 2 ^ (Z.of_nat (count_fetches before') - 1))])%list
    /\ (1 <= count_fetches before')%nat.
Proof.
  apply (fetchWithBackoff_delay_before_retry fetch_429_429_200 a_request
           default_maxRetries
           [EvFetch a_request; EvSleep 1000; EvFetch a_request; EvSleep 2000]
           a_request []).
  - reflexivity.
  - discriminate.
Defined.

(** C1 as stated fails: the first answer is a 500 with the message
    [boom], neither ok nor a 429, and the invocation does not fail with
    that message: it waits one second, calls [fetch] a second time and
    returns what the second answer carries. *)
Lemma non_429_failure_not_terminal :
  failed (fetch_500_then_200 0) = true
  /\ attempt (fetch_500_then_200 0) = Throw (Error "boom")
  /\ fetchWithBackoff fetch_500_then_200 a_request default_maxRetries
     = (Ok (JStr "done"), [EvFetch a_request; EvSleep 1000; EvFetch a_request])
  /\ ~ (fst (fetchWithBackoff fetch_500_then_200 a_request default_maxRetries)
          = Throw (Error "boom")
        /\ count_fetches (snd (fetchWithBackoff fetch_500_then_200 a_request
                                 default_maxRetries)) = 1%nat).
Proof.
  repeat split; try reflexivity.
  intros [H _]. vm_compute in H. discriminate.
Qed.

Lemma non_429_failure_retried_unless_last_witness :
  exists e,
    attempt (fetch_500_then_200 0) = Throw e
    /\ e = Error "boom"
    /\ (Z.of_nat 0 < default_maxRetries - 1 ->
        exists r evs,
          fetchWithBackoff fetch_500_then_200 a_request default_maxRetries
            = (r, (backoff_prefix a_request 1000 1 ++ EvFetch a_request :: evs)%list)).
Proof.
  destruct (non_429_failure_retried_unless_last fetch_500_then_200 a_request
              default_maxRetries 0
              {| status := 500; json := Ok (error_body (JStr "boom")) |})
    as (e & He & Hm & _ & Hearly).
  - reflexivity.
  - intros k Hk. lia.
  - reflexivity.
  - reflexivity.
  - discriminate.
  - exists e. split; [exact He|]. split; [|exact Hearly].
    cbn in Hm. destruct Hm as (_ & Hs & _). apply (Hs "boom"); [reflexivity | discriminate].
Defined.

(** C5. The claim fails of the code on this input: every one of the five
    attempts is answered 500 with the error body
    [{ "error": { "message": [] } }]. The empty array is truthy, so the
    fallback of [||] is not taken and the array is what [new Error]
    receives; its string form is empty. The invocation fails after five
    calls with an error whose message is empty. *)
Lemma exhausted_with_empty_message :
  (forall k, failed (fetch_500_empty_array k) = true)
  /\ fst (fetchWithBackoff fetch_500_empty_array a_request default_maxRetries)
     = Throw (Error "")
  /\ count_fetches (snd (fetchWithBackoff fetch_500_empty_array a_request
                           default_maxRetries)) = 5%nat
  /\ ~ (exists e,
          fst (fetchWithBackoff fetch_500_empty_array a_request default_maxRetries)
            = Throw e
          /\ message e <> "").
Proof.
  repeat split; try reflexivity.
  intros [e [H Hne]]. vm_compute in H. injection H as <-. now apply Hne.
Qed.

Lemma fetchWithBackoff_all_failed_witness :
  exists e,
    fst (fetchWithBackoff fetch_503 a_request default_maxRetries) = Throw e
    /\ count_fetches (snd (fetchWithBackoff fetch_503 a_request default_maxRetries))
       = Z.to_nat default_maxRetries
    /\ ((e = retries_exhausted
         /\ (default_maxRetries <= 0
             \/ attempt (fetch_503 (Z.to_nat (default_maxRetries - 1))) = Ok RateLimited))
        \/ (0 < default_maxRetries
            /\ attempt (fetch_503 (Z.to_nat (default_maxRetries - 1))) = Throw e))
    /\ (plain_failure (fetch_503 (Z.to_nat (default_maxRetries - 1))) = true ->
        message e <> "").
Proof.
  apply (fetchWithBackoff_all_failed fetch_503 a_request default_maxRetries).
  intros k Hk. reflexivity.
Defined.

(* ================================================================== *)
(** ** The UI actions *)
(* ================================================================== *)


Section Actions.

Variable w : App.world.

Lemma generateIdeas_without_brief s :
  brief s = "" ->
  generateIdeas w s = (setError (Some "Please enter a creative brief.") s, []).
Proof. intros Hb. unfold generateIdeas. now rewrite Hb. Qed.

(** C6. With an empty brief, [generateIdeas] leaves no event behind (no
    call to [fetch], no wait), sets the validation message and changes
    nothing else: the concept list and both loading indicators are as
    they were. *)
Theorem generateIdeas_empty_brief (s : state) :
  brief s = "" ->
  snd (generateIdeas w s) = []
  /\ error (fst (generateIdeas w s)) = Some "Please enter a creative brief."
  /\ concepts (fst (generateIdeas w s)) = concepts s
  /\ isLoadingIdeas (fst (generateIdeas w s)) = isLoadingIdeas s
  /\ loadingImageId (fst (generateIdeas w s)) = loadingImageId s.
Proof.
  intros Hb. rewrite generateIdeas_without_brief by assumption. repeat split.
Qed.

(** Whatever the state when the request settles, the [finally] block
    leaves the flag false. *)
Lemma generateIdeas_settle_not_loading now fetched s :
  isLoadingIdeas (fst (generateIdeas_settle now fetched s)) = false.
Proof.
  unfold generateIdeas_settle. now destruct (ideas_of_result now fetched).
Qed.

Lemma visualizeConcept_settle_not_loading conceptId fetched s :
  loadingImageId (fst (visualizeConcept_settle conceptId fetched s)) = None.
Proof.
  unfold visualizeConcept_settle. now destruct (imageUrl_of_result fetched).
Qed.

(** The state a run of [generateIdeas] with a brief ends in. *)
Lemma generateIdeas_with_brief s :
  brief s <> "" ->
  fst (generateIdeas w s)
    = fst (generateIdeas_settle (now w)
             (fst (fetchWithBackoff (fetch w) (ideas_request s) default_maxRetries))
             (setConcepts (fun _ => [])
                (setError None (setIsLoadingIdeas true s)))).
Proof.
  intros Hb. unfold generateIdeas.
  destruct (brief s) as [|c b] eqn:E; [contradiction|]. cbn [truthy negb String.eqb].
  destruct (fetchWithBackoff (fetch w) (ideas_request s) default_maxRetries) as [fetched evs].
  cbn [fst].
  now destruct (generateIdeas_settle (now w) fetched
                  (setConcepts (fun _ => []) (setError None (setIsLoadingIdeas true s)))).
Qed.

Lemma visualizeConcept_state conceptId conceptText s :
  fst (visualizeConcept w conceptId conceptText s)
    = fst (visualizeConcept_settle conceptId
             (fst (fetchWithBackoff (fetch w) (image_request s conceptText)
                     default_maxRetries))
             (setError None (setLoadingImageId (Some conceptId) s))).
Proof.
  unfold visualizeConcept.
  destruct (fetchWithBackoff (fetch w) (image_request s conceptText) default_maxRetries)
    as [fetched evs].
  cbn [fst].
  now destruct (visualizeConcept_settle conceptId fetched
                  (setError None (setLoadingImageId (Some conceptId) s))).
Qed.

(** C10. [generateIdeas] ends with the "loading ideas" flag false
    whenever the brief is not empty (the [finally] block), and whenever it
    is started from its button, which is disabled while ideas are loading
    (the early return for an empty brief leaves the flag as it was, and it
    was false). [visualizeConcept] always ends with the "loading image"
    identifier [null]. *)
Theorem loading_indicators_cleared (s : state) :
  (brief s <> "" -> isLoadingIdeas (fst (generateIdeas w s)) = false)
  /\ (generate_disabled s = false ->
      isLoadingIdeas (fst (generateIdeas w s)) = false)
  /\ (forall conceptId conceptText,
        loadingImageId (fst (visualizeConcept w conceptId conceptText s)) = None).
Proof.
  assert (Hbrief : brief s <> "" -> isLoadingIdeas (fst (generateIdeas w s)) = false).
  { intros Hb. rewrite generateIdeas_with_brief by assumption.
    apply generateIdeas_settle_not_loading. }
  split; [exact Hbrief|]. split.
  - intros Hg. unfold generate_disabled in Hg.
    apply orb_false_iff in Hg. destruct Hg as [Hl _].
    destruct (string_dec (brief s) "") as [Hb|Hb]; [|now apply Hbrief].
    rewrite generateIdeas_without_brief by assumption. exact Hl.
  - intros conceptId conceptText. rewrite visualizeConcept_state.
    apply visualizeConcept_settle_not_loading.
Qed.

(** The concept list after a run of [visualizeConcept]: the image set on
    the concepts with the given identifier when a data URI came out of
    the result, the list of before when an exception was caught. *)
Lemma visualizeConcept_concepts conceptId conceptText s :
  concepts (fst (visualizeConcept w conceptId conceptText s))
    = match imageUrl_of_result
              (fst (fetchWithBackoff (fetch w) (image_request s conceptText)
                      default_maxRetries)) with
      | Ok imageUrl => set_image conceptId imageUrl (concepts s)
      | Throw _ => concepts s
      end.
Proof.
  rewrite visualizeConcept_state. unfold visualizeConcept_settle.
  now destruct (imageUrl_of_result _).
Qed.

Lemma visualizeConcept_error conceptId conceptText s :
  error (fst (visualizeConcept w conceptId conceptText s))
    = match imageUrl_of_result
              (fst (fetchWithBackoff (fetch w) (image_request s conceptText)
                      default_maxRetries)) with
      | Ok _ => None
      | Throw err => Some ("Failed to generate image. " ++ message err)
      end.
Proof.
  rewrite visualizeConcept_state. unfold visualizeConcept_settle.
  now destruct (imageUrl_of_result _).
Qed.


(** C8, as the code has it. When an action ends with an error message on
    screen, the concept list is the list of before the action if the
    action was [visualizeConcept] or [generateIdeas] on an empty brief;
    after [generateIdeas] on a brief that is not empty the list is
    empty, having been cleared when the request was issued. *)
Theorem concepts_after_error (a : action) (s : state) (m : string) :
  error (fst (run w a s)) = Some m ->
  concepts (fst (run w a s))
    = match a with
      | VisualizeConcept _ _ => concepts s
      | GenerateIdeas => if String.eqb (brief s) "" then concepts s else []
      end.
Proof.
  destruct a as [|conceptId conceptText]; cbn [run].
  - destruct (String.eqb_spec (brief s) "") as [Hb|Hb].
    + now rewrite generateIdeas_without_brief.
    + rewrite generateIdeas_with_brief by assumption.
      unfold generateIdeas_settle.
      destruct (ideas_of_result _ _); cbn; [discriminate | reflexivity].
  - rewrite visualizeConcept_error, visualizeConcept_concepts.
    destruct (imageUrl_of_result _); [discriminate | reflexivity].
Qed.

End Actions.

(* ================================================================== *)
(** ** The concept-list parser *)
(* ================================================================== *)

Lemma append_nil_r s : s ++ "" = s.
Proof. induction s as [|c s IH]; cbn; [reflexivity | now rewrite IH]. Qed.

Lemma append_assoc (a b c : string) : (a ++ b) ++ c = a ++ (b ++ c).
Proof. induction a as [|x a IH]; cbn; [reflexivity | now rewrite IH]. Qed.

Lemma length_append (a b : string) :
  String.length (a ++ b) = (String.length a + String.length b)%nat.
Proof. induction a as [|x a IH]; cbn; [reflexivity | now rewrite IH]. Qed.

(** [span] cuts the string in two: a prefix of characters that satisfy [p],
    as long as the count it returns, and the rest. *)
Lemma span_spec p s :
  exists pre,
    s = pre ++ snd (span p s)
    /\ String.length pre = fst (span p s)
    /\ all_chars p pre = true.
Proof.
  induction s as [|c s (pre & E & L & A)]; cbn.
  - now exists "".
  - destruct (p c) eqn:Pc.
    + destruct (span p s) as [n r]. cbn in *. exists (String c pre). cbn.
      rewrite Pc, A, L, <- E. repeat split.
    + now exists "".
Qed.

(** A match of the pattern is a marker that starts the string, of the
    length [match_marker] returns. *)
Lemma match_marker_spec s n :
  match_marker s = Some n ->
  exists m rest, s = m ++ rest /\ String.length m = n /\ is_marker m.
Proof.
  unfold match_marker.
  destruct (span_spec is_digit s) as (ds & Es & Ls & As).
  destruct (span is_digit s) as [nd r1]. cbn [fst snd] in *.
  destruct nd as [|nd]; [discriminate|].
  destruct r1 as [|c r2]; [discriminate|].
  destruct (ascii_dec c ".") as [->|Hc].
  2:{ destruct c as [[] [] [] [] [] [] [] []]; try discriminate. now contradiction Hc. }
  destruct (span_spec is_space r2) as (ws & Er & Lw & Aw).
  destruct (span is_space r2) as [ns r3]. cbn [fst snd] in *.
  destruct ns as [|ns]; [discriminate|].
  intros [= <-]. exists (ds ++ "." ++ ws), r3. repeat split.
  - rewrite Es, Er at 1. now rewrite !append_assoc.
  - rewrite !length_append. cbn. lia.
  - exists ds, ws. repeat split; try assumption.
    + intros ->. discriminate.
    + intros ->. discriminate.
Qed.

(** Skipping: with [skip] the length of [pre], the split goes on after
    [pre] with the fragment it had. *)
Lemma split_from_skip pre : forall rest frag,
  split_from (String.length pre) frag (pre ++ rest) = split_from O frag rest.
Proof.
  induction pre as [|c pre IH]; intros rest frag; cbn [String.length append].
  - reflexivity.
  - cbn [split_from]. apply IH.
Qed.



Lemma span_append p pre r :
  all_chars p pre = true ->
  span p (pre ++ r) = ((String.length pre + fst (span p r))%nat, snd (span p r)).
Proof.
  induction pre as [|c pre IH]; cbn.
  - intros _. now destruct (span p r).
  - intros H. apply andb_true_iff in H. destruct H as [Hc H].
    rewrite Hc, (IH H). reflexivity.
Qed.

(** The pattern matches wherever a marker starts, whatever follows it. *)
Lemma match_marker_complete m x :
  is_marker m -> exists k, match_marker (m ++ x) = Some (S k).
Proof.
  intros (ds & ws & -> & Hds & Hws & Ads & Aws).
  unfold match_marker. rewrite !append_assoc, (span_append _ _ _ Ads).
  cbn [append span is_digit nat_of_ascii fst snd].
  change (is_digit ".") with false. cbn [fst snd].
  destruct ds as [|d ds]; [contradiction|]. cbn [String.length Nat.add].
  rewrite (span_append _ _ _ Aws).
  destruct ws as [|c ws]; [contradiction|]. cbn [String.length Nat.add].
  eexists. reflexivity.
Qed.




Lemma clock_monotone_le now : clock_monotone now -> forall j k, (j <= k)%nat -> now j <= now k.
Proof.
  intros Hm j k Hjk. induction Hjk as [|k _ IH]; [lia|].
  specialize (Hm k). lia.
Qed.

Section Mapi.

Variable now : nat -> Z.

Lemma mapi_from_text l : forall k, map text (mapi_from k (new_concept now) l) = map trim l.
Proof. induction l as [|x l IH]; intros k; cbn; [reflexivity | now rewrite IH]. Qed.


(** With a clock that does not run backwards, the identifiers given from
    index [k] on are at least [now k + k], and they grow along the list. *)
Lemma mapi_from_id_lower l : forall k i,
  clock_monotone now ->
  In i (map id (mapi_from k (new_concept now) l)) -> now k + Z.of_nat k <= i.
Proof.
  induction l as [|x l IH]; intros k i Hm; cbn; [contradiction|].
  intros [<- | Hin]; [lia|].
  apply IH in Hin; [|assumption]. specialize (Hm k). lia.
Qed.

Lemma mapi_from_id_NoDup l : forall k,
  clock_monotone now -> NoDup (map id (mapi_from k (new_concept now) l)).
Proof.
  induction l as [|x l IH]; intros k Hm; cbn; constructor; [|now apply IH].
  intros Hin. apply mapi_from_id_lower in Hin; [|assumption].
  specialize (Hm k). lia.
Qed.

End Mapi.

Lemma nonempty_after_trim f :
  (0 <? String.length (trim f))%nat = negb (String.eqb (trim f) "").
Proof. now destruct (trim f). Qed.

(* ================================================================== *)
(** ** Concrete runs of the UI actions *)
(* ================================================================== *)

Lemma generateIdeas_empty_brief_witness :
  snd (generateIdeas online (session "")) = []
  /\ error (fst (generateIdeas online (session ""))) = Some "Please enter a creative brief."
  /\ concepts (fst (generateIdeas online (session ""))) = [alpha; beta]
  /\ isLoadingIdeas (fst (generateIdeas online (session ""))) = false
  /\ loadingImageId (fst (generateIdeas online (session ""))) = None.
Proof.
  apply (generateIdeas_empty_brief online (session "")). reflexivity.
Defined.

Lemma loading_indicators_cleared_witness :
  generate_disabled (session "") = false
  /\ isLoadingIdeas (fst (generateIdeas offline (session ""))) = false
  /\ isLoadingIdeas (fst (generateIdeas offline (session "Brief"))) = false
  /\ loadingImageId (fst (visualizeConcept offline (id beta) (text beta) (session "Brief")))
     = None.
Proof.
  destruct (loading_indicators_cleared offline (session "")) as (_ & Hg & _).
  destruct (loading_indicators_cleared offline (session "Brief")) as (Hb & _ & Hv).
  split; [reflexivity|]. split; [|split].
  - apply Hg. reflexivity.
  - apply Hb. discriminate.
  - apply Hv.
Defined.


(** C8 as stated fails: with two concepts on screen and a brief entered,
    an idea generation that fails (every call to [fetch] is rejected)
    ends with its error message shown and the concept list empty. *)
Lemma failed_generation_clears_concepts :
  concepts (session "Brief") = [alpha; beta]
  /\ error (fst (run offline GenerateIdeas (session "Brief")))
     = Some "Failed to generate ideas. Failed to fetch"
  /\ concepts (fst (run offline GenerateIdeas (session "Brief"))) = []
  /\ concepts (fst (run offline GenerateIdeas (session "Brief")))
     <> concepts (session "Brief").
Proof.
  repeat split; try reflexivity. discriminate.
Qed.

Lemma concepts_after_error_witness :
  error (fst (run offline (VisualizeConcept (id alpha) (text alpha)) (session "Brief")))
    = Some "Failed to generate image. Failed to fetch"
  /\ concepts (fst (run offline (VisualizeConcept (id alpha) (text alpha)) (session "Brief")))
     = concepts (session "Brief").
Proof.
  split; [reflexivity|].
  apply (concepts_after_error offline (VisualizeConcept (id alpha) (text alpha))
           (session "Brief") "Failed to generate image. Failed to fetch").
  reflexivity.
Defined.

(* ================================================================== *)
(** ** The proxy *)
(* ================================================================== *)

(** A prompt that is missing or falsy is answered 400 before anything else
    is done. *)
Lemma generate_image_falsy_prompt (w : Proxy.world) (body prompt : jsval) :
  Proxy.destructure_prompt body = Ok prompt ->
  truthy prompt = false ->
  Proxy.generate_image w body = (Proxy.prompt_required, []).
Proof.
  intros Hd Ht. unfold Proxy.generate_image, Proxy.handler_try.
  rewrite Hd. cbn. now rewrite Ht.
Qed.

(** C9. For a request whose JSON body is an object without a [prompt], the
    handler replies 400 with [{ error: "Prompt is required." }] and leaves
    no event behind: no credential is asked for and the provider is not
    called. *)
Theorem generate_image_without_prompt (w : Proxy.world) (props : list (string * jsval)) :
  lookup "prompt" props = JUndefined ->
  Proxy.generate_image w (JObj props)
    = ({| Proxy.code := 400;
          Proxy.content := JObj [("error", JStr "Prompt is required.")] |}, []).
Proof.
  intros H. apply (generate_image_falsy_prompt w (JObj props) JUndefined).
  - cbn. now rewrite H.
  - reflexivity.
Qed.

Lemma generate_image_without_prompt_witness :
  Proxy.generate_image proxy_online (JObj [])
    = ({| Proxy.code := 400;
          Proxy.content := JObj [("error", JStr "Prompt is required.")] |}, []).
Proof.
  apply (generate_image_without_prompt proxy_online []). reflexivity.
Defined.

(* ================================================================== *)
(** ** More about [fetchWithBackoff]: its budget and how it ends *)
(* ================================================================== *)

Section Budget.

Variable fetch : nat -> result response.
Variable req : request.
Variable maxRetries : Z.

Lemma attempts_budget n : forall i delay,
  0 <= delay ->
  (count_fetches (snd (attempts fetch req maxRetries n i delay)) <= n)%nat
  /\ only_fetches_of req (snd (attempts fetch req maxRetries n i delay))
  /\ 0 <= total_wait (snd (attempts fetch req maxRetries n i delay))
       <= delay * (2 ^ Z.of_nat n - 1).
Proof.
  induction n as [|n IH]; intros i delay Hd.
  - cbn. repeat split; [lia | constructor | lia | lia].
  - assert (Hp : 0 < 2 ^ Z.of_nat n) by (apply Z.pow_pos_nonneg; lia).
    rewrite Nat2Z.inj_succ, Z.pow_succ_r by lia.
    destruct (attempts_trace_cases fetch req maxRetries n i delay) as [E|E]; rewrite E.
    + rewrite count_fetches_cons_fetch. cbn [total_wait].
      repeat split; [cbn; lia | repeat constructor | lia | nia].
    + destruct (IH (i + 1) (delay * 2) ltac:(lia)) as (Hc & Hf & Hw).
      rewrite count_fetches_cons_fetch, count_fetches_cons_sleep. cbn [total_wait].
      repeat split; [lia | repeat constructor; assumption | lia | nia].
Qed.

(** X1. However the answers fall, an invocation calls [fetch] at most
    [maxRetries] times, always with the request it was given, does nothing
    else but wait in between, and waits at most
    [1000 * (2^maxRetries - 1)] milliseconds in all. *)
Theorem fetchWithBackoff_budget :
  (count_fetches (snd (fetchWithBackoff fetch req maxRetries)) <= Z.to_nat maxRetries)%nat
  /\ only_fetches_of req (snd (fetchWithBackoff fetch req maxRetries))
  /\ 0 <= total_wait (snd (fetchWithBackoff fetch req maxRetries))
       <= 1000 * (2 ^ Z.of_nat (Z.to_nat maxRetries) - 1).
Proof. apply attempts_budget. lia. Qed.

(** X2. When every answer is a 429 the invocation fails with the generic
    error after [maxRetries] calls, each followed by its wait: it still
    waits after the last 429, although no attempt follows. *)
Theorem fetchWithBackoff_all_rate_limited :
  (forall k, Z.of_nat k < maxRetries -> rate_limited (fetch k) = true) ->
  fetchWithBackoff fetch req maxRetries
    = (Throw retries_exhausted, backoff_prefix req 1000 (Z.to_nat maxRetries)).
Proof.
  intros H. destruct (Z.leb_spec maxRetries 0) as [Hle|Hpos].
  { unfold fetchWithBackoff. now replace (Z.to_nat maxRetries) with O by lia. }
  rewrite (fetchWithBackoff_resume fetch req maxRetries (Z.to_nat maxRetries)); [| lia |].
  - rewrite Nat.sub_diag. cbn [attempts fst snd]. now rewrite app_nil_r.
  - intros k Hk. unfold retried. specialize (H k ltac:(lia)).
    destruct (fetch k) as [r|e]; cbn in H; [|discriminate].
    apply Z.eqb_eq in H. now rewrite attempt_429.
Qed.

(** X3. An ok response ends the invocation with whatever [response.json()]
    gives. If that is a rejection (the body is not JSON), the invocation
    fails with it at once: unlike a failure status, it is not retried,
    even when attempts remain. *)
Theorem fetchWithBackoff_ok_ends (i : nat) (resp : response) :
  Z.of_nat i < maxRetries ->
  (forall k, (k < i)%nat -> retried fetch maxRetries k = true) ->
  fetch i = Ok resp ->
  ok resp = true ->
  fetchWithBackoff fetch req maxRetries
    = (json resp, (backoff_prefix req 1000 i ++ [EvFetch req])%list).
Proof.
  intros Hi Hprev Hresp Hok.
  rewrite (fetchWithBackoff_resume fetch req maxRetries i); [| lia | assumption].
  replace (Z.to_nat maxRetries - i)%nat with (S (Z.to_nat maxRetries - i - 1))%nat by lia.
  rewrite attempts_S, Nat2Z.id, Hresp. unfold attempt. cbn [bind].
  now rewrite Hok.
Qed.

End Budget.

(* ================================================================== *)
(** ** More about the proxy *)
(* ================================================================== *)

Section ProxyFacts.

Variable w : Proxy.world.

(** Rewriting with what is known of the next step of the handler, then
    running the handler up to the step after it. *)
Ltac proxy_step H :=
  rewrite H;
  cbn [Proxy.perform Proxy.lift Proxy.io_bind Proxy.io_ret negb app fst snd].

Ltac proxy_start Hp :=
  unfold Proxy.generate_image, Proxy.handler_try;
  cbn [Proxy.destructure_prompt get Proxy.lift Proxy.io_bind];
  proxy_step Hp.

(** X17. With a prompt, credentials and an ok answer whose body parses, the
    handler answers 200 with that body, untouched, after exactly three
    steps: the client, the token, and one call to the provider that
    carries the prompt and the token. *)
Theorem generate_image_relays (props : list (string * jsval)) (u : unit)
        (tok token : jsval) (resp : response) (data : jsval) :
  truthy (lookup "prompt" props) = true ->
  Proxy.getClient w = Ok u ->
  Proxy.getAccessToken w = Ok tok ->
  get tok "token" = Ok token ->
  Proxy.upstream w = Ok resp ->
  ok resp = true ->
  json resp = Ok data ->
  Proxy.generate_image w (JObj props)
    = ({| Proxy.code := 200; Proxy.content := data |},
       [EvGetClient; EvGetAccessToken;
        EvFetch (Proxy.upstream_request token (lookup "prompt" props))]).
Proof.
  intros Hp Hc Ht Hk Hu Hok Hj. proxy_start Hp.
  proxy_step Hc. proxy_step Ht. proxy_step Hk. proxy_step Hu. proxy_step Hok.
  proxy_step Hj. reflexivity.
Qed.

(** X18. When a credential step fails, the handler answers 500 with the
    failure's message and the provider is never called. *)
Theorem generate_image_auth_failure (props : list (string * jsval)) (e : exn) :
  truthy (lookup "prompt" props) = true ->
  Proxy.getClient w = Throw e
  \/ ((exists u, Proxy.getClient w = Ok u) /\ Proxy.getAccessToken w = Throw e) ->
  fst (Proxy.generate_image w (JObj props))
    = {| Proxy.code := 500; Proxy.content := JObj [("error", JStr (message e))] |}
  /\ count_fetches (snd (Proxy.generate_image w (JObj props))) = O.
Proof.
  intros Hp H. proxy_start Hp.
  destruct H as [Hc | [[u Hc] Ht]]; proxy_step Hc; [now split|].
  proxy_step Ht. now split.
Qed.

(** X19. When the provider's answer is not ok, 429 included, and its body
    parses to something other than [null], the handler does not try
    again: after that one call it answers 500; the error it reports is
    ["HTTP error! status: N"] when the body's [error.message] is missing
    or falsy, that message converted to a string when it is truthy (a
    non-empty string being reported as it is), and the message of the
    [TypeError] of the conversion when it has no string form. *)
Theorem generate_image_upstream_failure (props : list (string * jsval)) (u : unit)
        (tok token : jsval) (resp : response) (errorData : jsval) :
  truthy (lookup "prompt" props) = true ->
  Proxy.getClient w = Ok u ->
  Proxy.getAccessToken w = Ok tok ->
  get tok "token" = Ok token ->
  Proxy.upstream w = Ok resp ->
  ok resp = false ->
  json resp = Ok errorData ->
  nullish errorData = false ->
  let said := opt_get (opt_get errorData "error") "message" in
  let reply := fst (Proxy.generate_image w (JObj props)) in
  let failure m := {| Proxy.code := 500; Proxy.content := JObj [("error", JStr m)] |} in
  (truthy said = false ->
   reply = failure ("HTTP error! status: " ++ string_of_Z (status resp)))
  /\ (forall m, said = JStr m -> m <> "" -> reply = failure m)
  /\ (truthy said = true -> convertible said = true -> reply = failure (to_string said))
  /\ (convertible said = false ->
      exists e, ToString said = Throw e /\ exn_name e = "TypeError"
                /\ reply = failure (message e))
  /\ count_fetches (snd (Proxy.generate_image w (JObj props))) = 1%nat.
Proof.
  intros Hp Hc Ht Hk Hu Hok Hj Hn said reply failure. subst said reply failure.
  proxy_start Hp.
  proxy_step Hc. proxy_step Ht. proxy_step Hk. proxy_step Hu. proxy_step Hok.
  proxy_step Hj.
  assert (Eerr : get errorData "error" = Ok (opt_get errorData "error")).
  { unfold opt_get. destruct errorData; try discriminate; reflexivity. }
  proxy_step Eerr. rewrite new_Error_js_or. unfold ToString.
  destruct (truthy (opt_get (opt_get errorData "error") "message")) eqn:Et.
  - destruct (convertible (opt_get (opt_get errorData "error") "message")) eqn:Ec;
      cbn [Proxy.lift Proxy.io_bind fst snd app].
    + split; [discriminate|]. split; [intros m Em _; now rewrite Em|].
      split; [reflexivity|]. split; [discriminate | reflexivity].
    + split; [discriminate|].
      split; [intros m Em _; rewrite Em in Ec; discriminate|].
      split; [intros _ H; discriminate|].
      split; [|reflexivity].
      intros _. exists cannot_convert. now repeat split.
  - cbn [Proxy.lift Proxy.io_bind fst snd app].
    split; [reflexivity|].
    split; [intros m Em Hm; rewrite Em in Et; destruct m; [contradiction | discriminate]|].
    split; [discriminate|]. split; [|reflexivity].
    intros H. apply inconvertible_truthy in H. rewrite H in Et. discriminate.
Qed.

(** X20. Whatever the request and the outside, the handler answers 400, 200 or
    500: 400 is the missing-prompt reply, sent before anything is done;
    200 carries exactly the parsed body of an ok answer of the provider;
    500 carries the message of an exception, which is logged last. It
    never calls the provider more than once. *)
Theorem generate_image_replies (body : jsval) :
  let r := fst (Proxy.generate_image w body) in
  let evs := snd (Proxy.generate_image w body) in
  ((r = Proxy.prompt_required /\ evs = [])
   \/ (Proxy.code r = 200
       /\ exists resp, Proxy.upstream w = Ok resp /\ ok resp = true
                       /\ json resp = Ok (Proxy.content r))
   \/ (Proxy.code r = 500
       /\ exists e evs', Proxy.content r = JObj [("error", JStr (message e))]
                         /\ evs = (evs' ++ [EvConsoleError "Error in /generate-image:" e])%list))
  /\ (count_fetches evs <= 1)%nat.
Proof.
  cbv zeta. unfold Proxy.generate_image, Proxy.handler_try.
  destruct (Proxy.destructure_prompt body) as [prompt|e]; cbn [Proxy.lift Proxy.io_bind].
  2:{ split; [|cbn; lia]. right; right. split; [reflexivity|]. now exists e, []. }
  destruct (truthy prompt); cbn [negb].
  2:{ cbn. split; [now left | lia]. }
  destruct (Proxy.getClient w) as [u|e]; cbn [Proxy.perform Proxy.io_bind].
  2:{ split; [|cbn; lia]. right; right. split; [reflexivity|]. now exists e, [EvGetClient]. }
  destruct (Proxy.getAccessToken w) as [tok|e]; cbn [Proxy.perform Proxy.io_bind].
  2:{ split; [|cbn; lia]. right; right. split; [reflexivity|].
      now exists e, [EvGetClient; EvGetAccessToken]. }
  destruct (get tok "token") as [token|e]; cbn [Proxy.lift Proxy.io_bind].
  2:{ split; [|cbn; lia]. right; right. split; [reflexivity|].
      now exists e, [EvGetClient; EvGetAccessToken]. }
  destruct (Proxy.upstream w) as [resp|e]; cbn [Proxy.perform Proxy.io_bind].
  2:{ split; [|cbn; lia]. right; right. split; [reflexivity|].
      now exists e, [EvGetClient; EvGetAccessToken; EvFetch (Proxy.upstream_request token prompt)]. }
  destruct (ok resp) eqn:Hok; cbn [negb].
  - destruct (json resp) as [data|e] eqn:Hj; cbn [Proxy.lift Proxy.io_bind Proxy.io_ret].
    + split; [|cbn; lia]. right; left. split; [reflexivity|]. now exists resp.
    + split; [|cbn; lia]. right; right. split; [reflexivity|].
      now exists e, [EvGetClient; EvGetAccessToken; EvFetch (Proxy.upstream_request token prompt)].
  - destruct (json resp) as [errorData|e]; cbn [Proxy.lift Proxy.io_bind].
    2:{ split; [|cbn; lia]. right; right. split; [reflexivity|].
        now exists e, [EvGetClient; EvGetAccessToken; EvFetch (Proxy.upstream_request token prompt)]. }
    destruct (get errorData "error") as [err|e]; cbn [Proxy.lift Proxy.io_bind].
    + destruct (new_Error _) as [e|e]; cbn [Proxy.lift Proxy.io_bind];
        (split; [|cbn; lia]); right; right; (split; [reflexivity|]);
        now exists e, [EvGetClient; EvGetAccessToken;
                       EvFetch (Proxy.upstream_request token prompt)].
    + split; [|cbn; lia]. right; right. split; [reflexivity|].
      now exists e, [EvGetClient; EvGetAccessToken; EvFetch (Proxy.upstream_request token prompt)].
Qed.

(** X21. A prompt that is there but falsy (the empty string, 0, [false],
    [null]) is refused like a missing one: 400, and nothing else is
    done. *)
Theorem generate_image_falsy_values (props : list (string * jsval)) :
  In (lookup "prompt" props) [JStr ""; JNum 0; JBool false; JNull] ->
  Proxy.generate_image w (JObj props) = (Proxy.prompt_required, []).
Proof.
  intros H. apply (generate_image_falsy_prompt w (JObj props) (lookup "prompt" props)).
  - reflexivity.
  - cbn in H. destruct H as [<-|[<-|[<-|[<-|[]]]]]; reflexivity.
Qed.

End ProxyFacts.

(* ================================================================== *)
(** ** More about [trim], [split] and the parser *)
(* ================================================================== *)


Lemma trimStart_head s : starts_with is_space (trimStart s) = false.
Proof.
  induction s as [|c s IH]; cbn; [reflexivity|].
  destruct (is_space c) eqn:Hc; [exact IH | cbn; exact Hc].
Qed.


Lemma trimEnd_last s : ends_with is_space (trimEnd s) = false.
Proof.
  induction s as [|c s IH]; cbn; [reflexivity|].
  destruct (trimEnd s) as [|d r].
  - destruct (is_space c) eqn:Hc; cbn; [reflexivity | exact Hc].
  - exact IH.
Qed.

Lemma trimEnd_head s :
  starts_with is_space s = false -> starts_with is_space (trimEnd s) = false.
Proof.
  destruct s as [|c s]; cbn; [reflexivity|]. intros Hc.
  destruct (trimEnd s); [now rewrite Hc | exact Hc].
Qed.

Lemma trimStart_fixed s : starts_with is_space s = false -> trimStart s = s.
Proof. destruct s as [|c s]; cbn; [reflexivity|]. now intros ->. Qed.

Lemma trimEnd_fixed s : ends_with is_space s = false -> trimEnd s = s.
Proof.
  induction s as [|c s IH]; [reflexivity|].
  destruct s as [|d s].
  - cbn. now intros ->.
  - intros H. change (ends_with is_space (String c (String d s)))
      with (ends_with is_space (String d s)) in H.
    change (trimEnd (String c (String d s)))
      with (match trimEnd (String d s) with
            | EmptyString => if is_space c then EmptyString else String c EmptyString
            | r => String c r
            end).
    now rewrite (IH H).
Qed.


(** Two ways of cutting one string: one cut comes first. *)
Lemma append_eq_append x : forall y u v,
  x ++ y = u ++ v ->
  (exists t, u = x ++ t /\ y = t ++ v) \/ (exists t, x = u ++ t /\ v = t ++ y).
Proof.
  induction x as [|c x IH]; intros y u v E.
  - left. exists u. now split.
  - destruct u as [|d u].
    + right. exists (String c x). now split.
    + cbn in E. injection E as <- E. destruct (IH _ _ _ E) as [(t & -> & ->)|(t & -> & ->)].
      * left. now exists t.
      * right. now exists t.
Qed.

Lemma digit_not_space c : is_digit c = true -> is_space c = false.
Proof. destruct c as [[] [] [] [] [] [] [] []]; cbn; intros H; try reflexivity; discriminate. Qed.

Lemma all_chars_append p a b : all_chars p (a ++ b) = all_chars p a && all_chars p b.
Proof. induction a as [|c a IH]; cbn; [reflexivity|]. now rewrite IH, andb_assoc. Qed.

Lemma ends_with_append p a b : b <> "" -> ends_with p (a ++ b) = ends_with p b.
Proof.
  intros Hb. induction a as [|c a IH]; [reflexivity|].
  cbn [append]. destruct (a ++ b) as [|d r] eqn:E.
  - destruct a; [cbn in E; contradiction | discriminate].
  - exact IH.
Qed.

Lemma all_chars_ends_with p b : all_chars p b = true -> b <> "" -> ends_with p b = true.
Proof.
  induction b as [|c b IH]; [contradiction|]. cbn [all_chars]. intros H _.
  apply andb_true_iff in H. destruct H as [Hc Hb].
  destruct b as [|d b]; [exact Hc|]. apply IH; [exact Hb | discriminate].
Qed.

Lemma span_stops p s : starts_with p s = false -> span p s = (O, s).
Proof. destruct s as [|c s]; cbn; [reflexivity|]. now intros ->. Qed.

Lemma marker_head m : is_marker m -> starts_with is_digit m = true.
Proof.
  intros (ds & ws & -> & Hds & _ & Ads & _). destruct ds as [|d ds]; [contradiction|].
  cbn in *. now apply andb_true_iff in Ads.
Qed.

(** Before text that does not start with whitespace, the pattern matches a
    marker and nothing more. *)
Lemma match_marker_exact m rest :
  is_marker m -> starts_with is_space rest = false ->
  match_marker (m ++ rest) = Some (String.length m).
Proof.
  intros (ds & ws & -> & Hds & Hws & Ads & Aws) Hr.
  unfold match_marker. rewrite !append_assoc, (span_append _ _ _ Ads).
  cbn [append]. rewrite (span_stops is_digit (String "." (ws ++ rest))) by reflexivity.
  cbn [fst snd]. destruct ds as [|d ds]; [contradiction|].
  cbn [String.length Nat.add]. rewrite (span_append _ _ _ Aws), (span_stops _ _ Hr).
  cbn [fst snd]. destruct ws as [|c ws]; [contradiction|].
  cbn [String.length Nat.add]. rewrite !length_append. cbn [String.length].
  f_equal. lia.
Qed.

(** Inside a fragment with no marker in it, and no digit at its end when
    a marker follows, the pattern matches nowhere. *)
Lemma no_match_inside f rest a b k :
  marker_free f ->
  rest = ""
  \/ (ends_with is_digit f = false /\ starts_with is_digit rest = true) ->
  f = a ++ b -> b <> "" ->
  match_marker (b ++ rest) <> Some (S k).
Proof.
  intros Hfree Hrest -> Hb Hm.
  destruct (match_marker_spec _ _ Hm) as (mk & rest' & E & _ & Hmk).
  destruct (append_eq_append _ _ _ _ E) as [(t & -> & Et)|(t & -> & _)].
  2:{ apply (Hfree a mk t); [reflexivity | assumption]. }
  destruct Hrest as [-> | [Hend Hhead]].
  { destruct t; [|discriminate]. rewrite append_nil_r in Hmk.
    apply (Hfree a b ""); [now rewrite append_nil_r | assumption]. }
  destruct t as [|c t].
  { rewrite append_nil_r in Hmk. apply (Hfree a b ""); [now rewrite append_nil_r | assumption]. }
  assert (Hc : is_digit c = true) by (subst rest; exact Hhead).
  destruct Hmk as (ds & ws & Emk & Hds & Hws & Ads & Aws).
  assert (Hdigits : all_chars is_digit b = true -> False).
  { intros Hbd. rewrite ends_with_append in Hend by assumption.
    rewrite (all_chars_ends_with _ _ Hbd Hb) in Hend. discriminate. }
  destruct (append_eq_append _ _ _ _ Emk) as [(t' & Eds & Et')|(t' & Eb & Et')].
  - (* [b] lies within the digits *)
    apply Hdigits. rewrite Eds, all_chars_append in Ads.
    now apply andb_true_iff in Ads.
  - (* [b] holds all the digits and the period; [c] is whitespace *)
    destruct t' as [|p t'].
    { apply Hdigits. rewrite append_nil_r in Eb. now subst b. }
    cbn in Et'. injection Et' as _ Ews.
    assert (Hsp : all_chars is_space (t' ++ String c t) = true) by now rewrite <- Ews.
    rewrite all_chars_append in Hsp. apply andb_true_iff in Hsp. destruct Hsp as [_ Hsp].
    cbn in Hsp. apply andb_true_iff in Hsp. destruct Hsp as [Hsp _].
    rewrite (digit_not_space _ Hc) in Hsp. discriminate.
Qed.

(** Where the pattern matches nowhere inside [f], the split walks through
    [f] and adds it to the fragment it is building. *)
Lemma split_from_through f : forall frag rest,
  (forall a b k, f = a ++ b -> b <> "" -> match_marker (b ++ rest) <> Some (S k)) ->
  split_from O frag (f ++ rest) = split_from O (frag ++ f) rest.
Proof.
  induction f as [|c f IH]; intros frag rest H.
  - cbn. now rewrite append_nil_r.
  - cbn [append].
    assert (Hno : forall k, match_marker (String c (f ++ rest)) <> Some (S k)).
    { intros k. apply (H "" (String c f) k); [reflexivity | discriminate]. }
    assert (Hstep : split_from O frag (String c (f ++ rest))
                    = split_from O (frag ++ String c "") (f ++ rest)).
    { cbn [split_from].
      destruct (match_marker (String c (f ++ rest))) as [[|k]|]; try reflexivity.
      now contradiction (Hno k). }
    rewrite Hstep, IH.
    + now rewrite append_assoc.
    + intros a b k -> Hb. apply (H (String c a) b k); [reflexivity | assumption].
Qed.

(** At a marker followed by text that does not start with whitespace, the
    split closes the fragment and goes on after the marker. *)
Lemma split_from_at_marker m rest frag :
  is_marker m -> starts_with is_space rest = false ->
  split_from O frag (m ++ rest) = frag :: split_from O "" rest.
Proof.
  intros Hm Hr. pose proof (match_marker_exact m rest Hm Hr) as E.
  destruct m as [|c m].
  { destruct Hm as (ds & ws & Em & Hds & _). destruct ds; [contradiction|discriminate]. }
  cbn [append] in *. cbn [split_from]. rewrite E. cbn [String.length].
  now rewrite split_from_skip.
Qed.

Lemma weave_head_not_space frags markers :
  Forall is_marker markers ->
  starts_with is_space (hd "" frags) = false ->
  starts_with is_space (weave frags markers) = false.
Proof.
  intros Hm Hf. destruct frags as [|f fs]; [reflexivity|]. cbn in Hf |- *.
  destruct markers as [|m ms]; [exact Hf|].
  destruct f as [|c f]; [|exact Hf]. cbn [append].
  inversion Hm as [|? ? Hm1 _]; subst.
  pose proof (marker_head _ Hm1) as Hd. destruct m as [|d m]; [discriminate|].
  cbn in *. now apply digit_not_space.
Qed.

Lemma split_from_weave_back markers : forall frags frag0,
  List.length frags = S (List.length markers) ->
  Forall is_marker markers ->
  well_cut frags ->
  split_from O frag0 (weave frags markers) = (frag0 ++ hd "" frags) :: tl frags.
Proof.
  induction markers as [|m ms IH]; intros frags frag0 Hlen Hm (Hfree & Hend & Hhead).
  - destruct frags as [|f [|]]; try discriminate. cbn [weave hd tl].
    inversion Hfree as [|? ? Hf _]; subst.
    rewrite <- (append_nil_r f) at 1. rewrite split_from_through; [reflexivity|].
    intros a b k E Hb. apply (no_match_inside f "" a b k); auto.
  - destruct frags as [|f [|f1 fs]]; try discriminate.
    inversion Hm as [|? ? Hm1 Hms]; subst.
    inversion Hfree as [|? ? Hf Hfree']; subst.
    change (removelast (f :: f1 :: fs)) with (f :: removelast (f1 :: fs)) in Hend.
    inversion Hend as [|? ? He Hend']; subst.
    cbn [tl] in Hhead. inversion Hhead as [|? ? Hh Hhead']; subst.
    change (weave (f :: f1 :: fs) (m :: ms)) with (f ++ m ++ weave (f1 :: fs) ms).
    cbn [hd tl].
    rewrite split_from_through.
    2:{ intros a b k E Hb. apply (no_match_inside f _ a b k); auto.
        right. split; [exact He|].
        pose proof (marker_head _ Hm1) as Hd. destruct m; [discriminate|exact Hd]. }
    rewrite split_from_at_marker; [| assumption |].
    2:{ apply weave_head_not_space; assumption. }
    f_equal. rewrite (IH (f1 :: fs) ""); [reflexivity | | assumption |].
    + cbn in Hlen |- *. lia.
    + repeat split; assumption.
Qed.


(* ================================================================== *)
(** ** The parser, from the text to the concepts *)
(* ================================================================== *)












Lemma trimStart_spaces a s : all_chars is_space a = true -> trimStart (a ++ s) = trimStart s.
Proof.
  induction a as [|c a IH]; cbn; [reflexivity|].
  intros H. apply andb_true_iff in H. destruct H as [Hc H]. now rewrite Hc, IH.
Qed.

Lemma trimEnd_spaces t b : all_chars is_space b = true -> trimEnd (t ++ b) = trimEnd t.
Proof.
  intros Hb. induction t as [|c t IH].
  - cbn [append trimEnd]. induction b as [|c b IHb]; [reflexivity|].
    cbn in Hb |- *. apply andb_true_iff in Hb. destruct Hb as [Hc Hb].
    now rewrite (IHb Hb), Hc.
  - cbn [append trimEnd]. now rewrite IH.
Qed.

(** Only one string is [f] without the whitespace at its ends. *)
Lemma trimmed_of_unique f t : trimmed_of f t -> t = trim f.
Proof.
  intros ((a & b & -> & A & B) & Hh & Hl). unfold trim.
  rewrite (trimStart_spaces a _ A).
  destruct t as [|c t].
  - cbn [append]. rewrite <- (append_nil_r b), (trimStart_spaces b "" B). reflexivity.
  - rewrite trimStart_fixed by exact Hh.
    rewrite (trimEnd_spaces _ b B). symmetry. now apply trimEnd_fixed.
Qed.

Section Concepts.

Variable now : nat -> Z.


Lemma mapi_from_length l : forall k,
  List.length (mapi_from k (new_concept now) l) = List.length l.
Proof. induction l as [|f l IH]; intros k; cbn; [reflexivity | now rewrite IH]. Qed.




End Concepts.



Lemma no_marker_in_unfold s :
  no_marker_in s
    = match match_marker s with
      | Some (S _) => false
      | _ => match s with
             | EmptyString => true
             | String _ s' => no_marker_in s'
             end
      end.
Proof. now destruct s. Qed.

Lemma no_marker_in_suffix a : forall x, no_marker_in (a ++ x) = true -> no_marker_in x = true.
Proof.
  induction a as [|c a IH]; intros x H; [exact H|].
  apply IH. rewrite no_marker_in_unfold in H. cbn [append] in H.
  destruct (match_marker (String c (a ++ x))) as [[|k]|]; try exact H. discriminate.
Qed.

(** A string in which the pattern matches at no position has no marker
    inside. *)
Lemma no_marker_in_sound s : no_marker_in s = true -> marker_free s.
Proof.
  intros H a m b -> Hm. apply no_marker_in_suffix in H.
  destruct (match_marker_complete m b Hm) as [k Hk].
  rewrite no_marker_in_unfold, Hk in H. discriminate.
Qed.

Lemma mapi_from_In {A B} (f : nat -> A -> B) l : forall k y,
  In y (mapi_from k f l) -> exists j x, In x l /\ y = f j x.
Proof.
  induction l as [|x l IH]; intros k y; cbn; [contradiction|].
  intros [<- | H].
  - exists k, x. split; [now left | reflexivity].
  - destruct (IH _ _ H) as (j & x' & Hin & ->). exists j, x'. split; [now right | reflexivity].
Qed.

Lemma first_line_nonempty s :
  s <> "" -> starts_with is_space s = false -> first_line s <> "".
Proof.
  destruct s as [|c s]; [contradiction|]. cbn. intros _ Hc.
  destruct (Ascii.eqb_spec c "010") as [->|_]; [discriminate Hc | discriminate].
Qed.

Lemma parseConcepts_member (now : nat -> Z) (text : string) (c : concept) :
  In c (parseConcepts now text) ->
  App.text c <> ""
  /\ starts_with is_space (App.text c) = false
  /\ ends_with is_space (App.text c) = false
  /\ title c <> ""
  /\ imageUrl c = None.
Proof.
  intros H. unfold parseConcepts, mapi in H.
  destruct (mapi_from_In _ _ _ _ H) as (j & f & Hf & ->).
  apply filter_In in Hf. destruct Hf as [_ Hf]. unfold title. cbn [App.text new_concept].
  assert (Hne : trim f <> "") by (intros E; rewrite E in Hf; discriminate).
  assert (Hh : starts_with is_space (trim f) = false) by apply trimEnd_head, trimStart_head.
  repeat split; try assumption.
  - apply trimEnd_last.
  - now apply first_line_nonempty.
Qed.

(** X5. Every concept the parser returns has a text that is not empty and has
    no whitespace at either end, so the heading of its card, the first
    line of the text, is not empty either; and it has no image. *)
Theorem parseConcepts_texts (now : nat -> Z) (text : string) (c : concept) :
  In c (parseConcepts now text) ->
  App.text c <> ""
  /\ starts_with is_space (App.text c) = false
  /\ ends_with is_space (App.text c) = false
  /\ title c <> ""
  /\ has_image c = false.
Proof.
  intros H. destruct (parseConcepts_member now text c H) as (H1 & H2 & H3 & H4 & H5).
  repeat split; try assumption. unfold has_image. now rewrite H5.
Qed.

Lemma parseConcepts_of_fragments now frags markers :
  List.length frags = S (List.length markers) ->
  Forall is_marker markers ->
  well_cut frags ->
  parseConcepts now (weave frags markers)
    = mapi (new_concept now) (filter (fun f => negb (String.eqb (trim f) "")) frags).
Proof.
  intros Hlen Hm Hw. unfold parseConcepts, split_marker.
  rewrite split_from_weave_back by assumption.
  replace (("" ++ hd "" frags) :: tl frags) with frags
    by (destruct frags; [discriminate | reflexivity]).
  f_equal. apply filter_ext. intros f. apply nonempty_after_trim.
Qed.

(** X6. The parser undoes a numbered list: for fragments with markers between
    them, where no fragment has a marker inside, none but the last ends
    with a digit and none but the first starts with whitespace, it returns
    the fragments that are not blank, trimmed, in their order. *)
Theorem parseConcepts_weave (now : nat -> Z) (frags markers : list string) :
  List.length frags = S (List.length markers) ->
  Forall is_marker markers ->
  well_cut frags ->
  map App.text (parseConcepts now (weave frags markers))
    = map trim (filter (fun f => negb (String.eqb (trim f) "")) frags).
Proof.
  intros Hlen Hm Hw. rewrite parseConcepts_of_fragments by assumption.
  apply mapi_from_text.
Qed.

(** X7. A text in which the pattern matches nowhere is one concept, the whole
    text trimmed, or none when the text is blank. *)
Theorem parseConcepts_without_marker (now : nat -> Z) (text : string) :
  no_marker_in text = true ->
  parseConcepts now text
    = if String.eqb (trim text) "" then []
      else [ {| id := now 0%nat + 0; App.text := trim text; imageUrl := None |} ].
Proof.
  intros H. apply no_marker_in_sound in H.
  change text with (weave [text] []) at 1.
  rewrite parseConcepts_of_fragments.
  - cbn [filter]. now destruct (String.eqb (trim text) "").
  - reflexivity.
  - constructor.
  - repeat split; constructor; [assumption | constructor].
Qed.

Lemma parseConcepts_member_no_image now text c :
  In c (parseConcepts now text) -> has_image c = false /\ imageUrl c = None.
Proof.
  intros H. destruct (parseConcepts_member now text c H) as (_ & _ & _ & _ & H5).
  unfold has_image. now rewrite H5.
Qed.

(* ================================================================== *)
(** ** More about the two actions *)
(* ================================================================== *)

Lemma total_wait_app evs evs' : total_wait (evs ++ evs') = total_wait evs + total_wait evs'.
Proof.
  induction evs as [|ev evs IH]; cbn [app total_wait]; [reflexivity|].
  destruct ev; rewrite IH; lia.
Qed.

Lemma generateIdeas_settle_quiet now fetched s :
  count_fetches (snd (generateIdeas_settle now fetched s)) = O
  /\ total_wait (snd (generateIdeas_settle now fetched s)) = 0.
Proof. unfold generateIdeas_settle. now destruct (ideas_of_result now fetched). Qed.

Lemma visualizeConcept_settle_quiet conceptId fetched s :
  count_fetches (snd (visualizeConcept_settle conceptId fetched s)) = O
  /\ total_wait (snd (visualizeConcept_settle conceptId fetched s)) = 0.
Proof. unfold visualizeConcept_settle. now destruct (imageUrl_of_result fetched). Qed.

(** The part of a data URI the page builds is never empty. *)
Lemma imageUrl_of_result_data_uri fetched u :
  imageUrl_of_result fetched = Ok u -> exists b, u = "data:image/png;base64," ++ b.
Proof.
  unfold imageUrl_of_result. destruct fetched as [result|e]; cbn [bind]; [|discriminate].
  destruct (get result "predictions") as [p|e]; cbn [bind]; [|discriminate].
  destruct (truthy p); [|discriminate].
  destruct (get p "length") as [len|e]; cbn [bind]; [|discriminate].
  destruct (gt_zero len) as [[|]|e]; cbn [bind]; try discriminate.
  destruct (get_index p 0) as [first|e]; cbn [bind]; [|discriminate].
  destruct (get first "bytesBase64Encoded") as [bytes|e]; cbn [bind]; [|discriminate].
  destruct (truthy bytes); [|discriminate].
  destruct (ToString bytes) as [encoded|e]; cbn [bind]; [|discriminate].
  intros [= <-]. now eexists.
Qed.

Lemma set_image_ids conceptId u l : map id (set_image conceptId u l) = map id l.
Proof.
  unfold set_image. rewrite map_map. apply map_ext. intros c.
  now destruct (id c =? conceptId).
Qed.

Lemma set_image_texts conceptId u l : map text (set_image conceptId u l) = map text l.
Proof.
  unfold set_image. rewrite map_map. apply map_ext. intros c.
  now destruct (id c =? conceptId).
Qed.

Lemma set_image_unknown conceptId u l :
  ~ In conceptId (map id l) -> set_image conceptId u l = l.
Proof.
  intros H. unfold set_image. rewrite <- (map_id l) at 2. apply map_ext_in.
  intros c Hc. destruct (Z.eqb_spec (id c) conceptId) as [E|E]; [|reflexivity].
  exfalso. apply H. rewrite <- E. now apply in_map.
Qed.

(** X8. The updates of two settled image requests compose: for one concept the
    later image replaces the earlier one, and for two concepts the order
    in which they settle does not matter. *)
Theorem set_image_compose (i j : Z) (u v : string) (l : list concept) :
  set_image i v (set_image i u l) = set_image i v l
  /\ (i <> j -> set_image i u (set_image j v l) = set_image j v (set_image i u l)).
Proof.
  unfold set_image. split.
  - rewrite map_map. apply map_ext. intros c.
    destruct (Z.eqb_spec (id c) i) as [E|E]; cbn [id].
    + now rewrite E, Z.eqb_refl.
    + now destruct (Z.eqb_spec (id c) i).
  - intros Hij. rewrite !map_map. apply map_ext. intros c.
    destruct (Z.eqb_spec (id c) i) as [Ei|Ei], (Z.eqb_spec (id c) j) as [Ej|Ej];
      cbn [id]; try (exfalso; lia);
      repeat match goal with
             | |- context [?a =? ?b] => destruct (Z.eqb_spec a b); try contradiction
             end; reflexivity.
Qed.

Lemma fetchWithBackoff_default_budget fetch req :
  (count_fetches (snd (fetchWithBackoff fetch req default_maxRetries)) <= 5)%nat
  /\ total_wait (snd (fetchWithBackoff fetch req default_maxRetries)) <= 31000.
Proof.
  destruct (attempts_budget fetch req default_maxRetries 5 0 1000 ltac:(lia))
    as (Hc & _ & Hw).
  change (1000 * (2 ^ Z.of_nat 5 - 1)) with 31000 in Hw.
  unfold fetchWithBackoff. change (Z.to_nat default_maxRetries) with 5%nat.
  split; [exact Hc | lia].
Qed.

Section MoreActions.

Variable w : App.world.

Lemma generateIdeas_trace s :
  brief s <> "" ->
  snd (generateIdeas w s)
    = (snd (fetchWithBackoff (fetch w) (ideas_request s) default_maxRetries)
         ++ snd (generateIdeas_settle (now w)
                   (fst (fetchWithBackoff (fetch w) (ideas_request s) default_maxRetries))
                   (Page.generateIdeas_begin s)))%list.
Proof.
  intros Hb. unfold generateIdeas, Page.generateIdeas_begin.
  destruct (brief s) as [|c b] eqn:E; [contradiction|]. cbn [truthy negb String.eqb].
  destruct (fetchWithBackoff (fetch w) (ideas_request s) default_maxRetries) as [fetched evs].
  cbn [fst snd].
  now destruct (generateIdeas_settle (now w) fetched
                  (setConcepts (fun _ => []) (setError None (setIsLoadingIdeas true s)))).
Qed.

Lemma visualizeConcept_trace conceptId conceptText s :
  snd (visualizeConcept w conceptId conceptText s)
    = (snd (fetchWithBackoff (fetch w) (image_request s conceptText) default_maxRetries)
         ++ snd (visualizeConcept_settle conceptId
                   (fst (fetchWithBackoff (fetch w) (image_request s conceptText)
                           default_maxRetries))
                   (Page.visualizeConcept_begin conceptId s)))%list.
Proof.
  unfold visualizeConcept, Page.visualizeConcept_begin.
  destruct (fetchWithBackoff (fetch w) (image_request s conceptText) default_maxRetries)
    as [fetched evs].
  cbn [fst snd].
  now destruct (visualizeConcept_settle conceptId fetched
                  (setError None (setLoadingImageId (Some conceptId) s))).
Qed.

(** Whatever the network does, an action calls [fetch] at most five times
    and spends at most 31 seconds waiting between its attempts. *)
Lemma run_budget (a : action) (s : state) :
  (count_fetches (snd (run w a s)) <= 5)%nat
  /\ total_wait (snd (run w a s)) <= 31000.
Proof.
  destruct a as [|conceptId conceptText]; cbn [run].
  - destruct (string_dec (brief s) "") as [Hb|Hb].
    + rewrite generateIdeas_without_brief by assumption. cbn. split; lia.
    + rewrite generateIdeas_trace by assumption.
      rewrite count_fetches_app, total_wait_app.
      destruct (generateIdeas_settle_quiet (now w)
                  (fst (fetchWithBackoff (fetch w) (ideas_request s) default_maxRetries))
                  (Page.generateIdeas_begin s)) as [-> ->].
      destruct (fetchWithBackoff_default_budget (fetch w) (ideas_request s)) as (Hc & Hw).
      split; lia.
  - rewrite visualizeConcept_trace.
    rewrite count_fetches_app, total_wait_app.
    destruct (visualizeConcept_settle_quiet conceptId
                (fst (fetchWithBackoff (fetch w) (image_request s conceptText)
                        default_maxRetries))
                (Page.visualizeConcept_begin conceptId s)) as [-> ->].
    destruct (fetchWithBackoff_default_budget (fetch w) (image_request s conceptText))
      as (Hc & Hw).
    split; lia.
Qed.

Lemma generateIdeas_settle_frame now fetched s :
  let s' := fst (generateIdeas_settle now fetched s) in
  apiKey s' = apiKey s /\ brief s' = brief s /\ creativity s' = creativity s
  /\ loadingImageId s' = loadingImageId s.
Proof. unfold generateIdeas_settle. now destruct (ideas_of_result now fetched). Qed.

Lemma visualizeConcept_settle_frame conceptId fetched s :
  let s' := fst (visualizeConcept_settle conceptId fetched s) in
  apiKey s' = apiKey s /\ brief s' = brief s /\ creativity s' = creativity s
  /\ isLoadingIdeas s' = isLoadingIdeas s
  /\ map id (concepts s') = map id (concepts s)
  /\ map text (concepts s') = map text (concepts s).
Proof.
  unfold visualizeConcept_settle. destruct (imageUrl_of_result fetched); cbn; repeat split.
  - apply set_image_ids.
  - apply set_image_texts.
Qed.

(** X9. [generateIdeas] leaves the key, the brief, the creativity and the
    "loading image" identifier as they were, on every path. *)
Theorem generateIdeas_frame (s : state) :
  let s' := fst (generateIdeas w s) in
  apiKey s' = apiKey s /\ brief s' = brief s /\ creativity s' = creativity s
  /\ loadingImageId s' = loadingImageId s.
Proof.
  cbv zeta. destruct (string_dec (brief s) "") as [Hb|Hb].
  - rewrite generateIdeas_without_brief by assumption. repeat split.
  - rewrite generateIdeas_with_brief by assumption.
    apply (generateIdeas_settle_frame (now w) _
             (setConcepts (fun _ => []) (setError None (setIsLoadingIdeas true s)))).
Qed.

(** X10. [visualizeConcept] leaves the key, the brief, the creativity and the
    "loading ideas" flag as they were, and in the concept list it changes
    nothing but image fields: the identifiers and the texts are the same,
    in the same order, whatever the outcome; and a concept that had an
    image still has one. *)
Theorem visualizeConcept_frame (conceptId : Z) (conceptText : string) (s : state) :
  let s' := fst (visualizeConcept w conceptId conceptText s) in
  apiKey s' = apiKey s /\ brief s' = brief s /\ creativity s' = creativity s
  /\ isLoadingIdeas s' = isLoadingIdeas s
  /\ map id (concepts s') = map id (concepts s)
  /\ map text (concepts s') = map text (concepts s)
  /\ (forall n c, nth_error (concepts s) n = Some c -> imageUrl c <> None ->
      exists c', nth_error (concepts s') n = Some c' /\ imageUrl c' <> None).
Proof.
  cbv zeta. rewrite visualizeConcept_state.
  pose proof (visualizeConcept_settle_frame conceptId
                (fst (fetchWithBackoff (fetch w) (image_request s conceptText)
                        default_maxRetries))
                (setError None (setLoadingImageId (Some conceptId) s))) as H.
  cbv zeta in H. destruct H as (H1 & H2 & H3 & H4 & H5 & H6).
  repeat split; try assumption.
  intros n c Hn Hc. unfold visualizeConcept_settle.
  destruct (imageUrl_of_result _) as [u|e]; cbn [fst concepts setLoadingImageId setConcepts setError].
  - unfold set_image. rewrite nth_error_map, Hn. cbn [option_map].
    eexists. split; [reflexivity|].
    destruct (id c =? conceptId); [discriminate | assumption].
  - now exists c.
Qed.

(** X11. When no concept of the list has the identifier, [visualizeConcept]
    leaves the list as it is, whatever the provider answers. *)
Theorem visualizeConcept_unknown_id (conceptId : Z) (conceptText : string) (s : state) :
  ~ In conceptId (map id (concepts s)) ->
  concepts (fst (visualizeConcept w conceptId conceptText s)) = concepts s.
Proof.
  intros H. rewrite visualizeConcept_concepts.
  destruct (imageUrl_of_result _); [now apply set_image_unknown | reflexivity].
Qed.

Lemma generateIdeas_concepts s :
  brief s <> "" ->
  concepts (fst (generateIdeas w s))
    = match ideas_of_result (now w)
              (fst (fetchWithBackoff (fetch w) (ideas_request s) default_maxRetries)) with
      | Ok parsedConcepts => parsedConcepts
      | Throw _ => []
      end.
Proof.
  intros Hb. rewrite generateIdeas_with_brief by assumption. unfold generateIdeas_settle.
  now destruct (ideas_of_result _ _).
Qed.

Lemma generateIdeas_error s :
  brief s <> "" ->
  error (fst (generateIdeas w s))
    = match ideas_of_result (now w)
              (fst (fetchWithBackoff (fetch w) (ideas_request s) default_maxRetries)) with
      | Ok _ => None
      | Throw err => Some ("Failed to generate ideas. " ++ message err)
      end.
Proof.
  intros Hb. rewrite generateIdeas_with_brief by assumption. unfold generateIdeas_settle.
  now destruct (ideas_of_result _ _).
Qed.

Lemma ideas_of_result_no_image now fetched cs :
  ideas_of_result now fetched = Ok cs -> Forall (fun c => has_image c = false) cs.
Proof.
  unfold ideas_of_result. destruct fetched as [result|e]; cbn [bind]; [|discriminate].
  destruct (truthy (candidate_text result)); cbn [negb]; [|discriminate].
  destruct (candidate_text result); try discriminate. intros [= <-].
  apply Forall_forall. intros c Hc.
  now destruct (parseConcepts_member_no_image _ _ _ Hc).
Qed.

(** X12. After [generateIdeas] on a brief that is not empty, no concept has an
    image: the "Visual Prototypes" section is empty again, whether the
    generation succeeded or not. *)
Theorem generateIdeas_no_visuals (s : state) :
  brief s <> "" ->
  visual_prototypes (fst (generateIdeas w s)) = [].
Proof.
  intros Hb. unfold visual_prototypes. rewrite generateIdeas_concepts by assumption.
  destruct (ideas_of_result _ _) as [cs|e] eqn:E; [|reflexivity].
  apply ideas_of_result_no_image in E.
  induction E as [|c cs Hc _ IH]; [reflexivity|]. cbn. now rewrite Hc.
Qed.

(** X13. An error message set by an action is never the empty string, so the
    error box, which is rendered when the message is truthy, shows every
    error an action sets. *)
Theorem run_error_shown (a : action) (s : state) (m : string) :
  error (fst (run w a s)) = Some m ->
  m <> "" /\ error_shown (fst (run w a s)) = true.
Proof.
  intros H. assert (Hm : m <> "").
  { destruct a as [|conceptId conceptText]; cbn [run] in H.
    - destruct (string_dec (brief s) "") as [Hb|Hb].
      + rewrite generateIdeas_without_brief in H by assumption. cbn in H.
        injection H as <-. discriminate.
      + rewrite generateIdeas_error in H by assumption.
        destruct (ideas_of_result _ _); [discriminate|]. injection H as <-. discriminate.
    - rewrite visualizeConcept_error in H.
      destruct (imageUrl_of_result _); [discriminate|]. injection H as <-. discriminate. }
  split; [exact Hm|]. unfold error_shown. rewrite H. cbn.
  destruct m; [contradiction | reflexivity].
Qed.

(** X14. Whenever [visualizeConcept] accepts the provider's result, the image
    it stores on the target is a [data:image/png;base64,] URI, and the
    target is among the visual prototypes the page renders. *)
Theorem visualizeConcept_shows_image (s : state) (target : concept) (u : string) :
  In target (concepts s) ->
  imageUrl_of_result
    (fst (fetchWithBackoff (fetch w) (image_request s (text target)) default_maxRetries))
    = Ok u ->
  (exists b, u = "data:image/png;base64," ++ b)
  /\ In {| id := id target; text := text target; imageUrl := Some u |}
        (visual_prototypes (fst (visualizeConcept w (id target) (text target) s))).
Proof.
  intros Hin Hu. destruct (imageUrl_of_result_data_uri _ _ Hu) as [b Eb].
  split; [now exists b|].
  unfold visual_prototypes. rewrite visualizeConcept_concepts, Hu.
  apply filter_In. split.
  - unfold set_image. apply in_map_iff. exists target. now rewrite Z.eqb_refl.
  - unfold has_image. cbn. now rewrite Eb.
Qed.

(** X15. A result in which no candidate text is found ends [generateIdeas]
    with the message of the malformed response, an empty concept list and
    the exception logged. *)
Theorem generateIdeas_invalid_structure (s : state) (result : jsval) :
  brief s <> "" ->
  fst (fetchWithBackoff (fetch w) (ideas_request s) default_maxRetries) = Ok result ->
  truthy (candidate_text result) = false ->
  error (fst (generateIdeas w s))
    = Some "Failed to generate ideas. Invalid response structure from API."
  /\ concepts (fst (generateIdeas w s)) = []
  /\ In (EvConsoleError "Error generating ideas:"
           (Error "Invalid response structure from API."))
        (snd (generateIdeas w s)).
Proof.
  intros Hb Hf Ht.
  rewrite generateIdeas_error, generateIdeas_concepts, generateIdeas_trace by assumption.
  rewrite Hf. unfold generateIdeas_settle, ideas_of_result. cbn [bind]. rewrite Ht.
  cbn [negb fst snd]. repeat split. apply in_or_app. right. now left.
Qed.

End MoreActions.

(* ================================================================== *)
(** ** The page as a transition system *)
(* ================================================================== *)

Lemma fold_left_invariant {A B} (f : A -> B -> A) (P : A -> Prop) (Q : B -> Prop) :
  (forall a b, P a -> Q b -> P (f a b)) ->
  forall l a, Forall Q l -> P a -> P (fold_left f l a).
Proof.
  intros Hstep l. induction l as [|b l IH]; intros a Hl Ha; [exact Ha|].
  inversion Hl; subst. cbn. apply IH; auto.
Qed.

Lemma step_flags_match x i : Page.flags_match x -> Page.flags_match (Page.step x i).
Proof.
  intros [Hi Hv]. unfold Page.flags_match, Page.step.
  destruct i as [|n| | | | |now fetched|conceptId fetched]; try (now split).
  - unfold generate_disabled.
    destruct (isLoadingIdeas (Page.ui x)) eqn:El; cbn [orb].
    { rewrite El. now split. }
    destruct (negb (truthy (JStr (apiKey (Page.ui x))))).
    { rewrite El. now split. }
    destruct (negb (truthy (JStr (brief (Page.ui x))))); cbn.
    { rewrite El. now split. }
    rewrite Hi. now split.
  - destruct (nth_error (concepts (Page.ui x)) n) as [c|]; [|now split].
    unfold visualize_disabled.
    destruct (loadingImageId (Page.ui x)) eqn:El.
    { rewrite El. now split. }
    cbn. rewrite Hv. now split.
  - destruct (Page.ideas_pending x) as [|k] eqn:Ek.
    { rewrite Ek. now split. }
    destruct (isLoadingIdeas (Page.ui x)); [|discriminate]. injection Hi as ->.
    cbn [Page.ui Page.ideas_pending Page.images_pending].
    rewrite generateIdeas_settle_not_loading.
    destruct (generateIdeas_settle_frame now fetched (Page.ui x)) as (_ & _ & _ & ->).
    now split.
  - destruct (existsb (Z.eqb conceptId) (Page.images_pending x)) eqn:Ex; [|now split].
    cbn [Page.ui Page.ideas_pending Page.images_pending].
    rewrite visualizeConcept_settle_not_loading.
    destruct (visualizeConcept_settle_frame conceptId fetched (Page.ui x))
      as (_ & _ & _ & -> & _).
    split; [exact Hi|].
    rewrite Hv in Ex |- *. destruct (loadingImageId (Page.ui x)); [|discriminate].
    cbn in Ex |- *. rewrite orb_false_r in Ex. now rewrite Ex.
Qed.

(** X22. At every moment of a session at most one ideas request and at most one
    image request are pending, and the loading indicators say exactly
    which: the flag is set if and only if an ideas request is pending, and
    the identifier is that of the one concept whose image is pending. *)
Theorem page_single_flight (inputs : list Page.input) :
  Page.flags_match (Page.after inputs)
  /\ (Page.ideas_pending (Page.after inputs) <= 1)%nat
  /\ (List.length (Page.images_pending (Page.after inputs)) <= 1)%nat.
Proof.
  assert (H : Page.flags_match (Page.after inputs)).
  { unfold Page.after.
    apply (fold_left_invariant Page.step Page.flags_match (fun _ => True)).
    - intros a b Ha _. now apply step_flags_match.
    - apply Forall_forall. intros; exact I.
    - now split. }
  split; [exact H|]. destruct H as [Hi Hv]. rewrite Hi, Hv.
  destruct (isLoadingIdeas _), (loadingImageId _); cbn; lia.
Qed.

Lemma ideas_of_result_parsed now fetched cs :
  ideas_of_result now fetched = Ok cs -> exists t, cs = parseConcepts now t.
Proof.
  unfold ideas_of_result. destruct fetched as [result|e]; cbn [bind]; [|discriminate].
  destruct (truthy (candidate_text result)); cbn [negb]; [|discriminate].
  destruct (candidate_text result) as [| | | |t| |]; try discriminate.
  intros [= <-]. now exists t.
Qed.

Lemma content_ok_same_concepts s s' :
  concepts s' = concepts s ->
  error s' = None \/ error_shown s' = true ->
  Page.content_ok s -> Page.content_ok s'.
Proof. intros Ec He (Hn & Hf & _). unfold Page.content_ok. now rewrite Ec. Qed.

Lemma generateIdeas_settle_content now fetched s :
  clock_monotone now -> Page.content_ok s ->
  Page.content_ok (fst (generateIdeas_settle now fetched s)).
Proof.
  intros Hm Hs. unfold generateIdeas_settle.
  destruct (ideas_of_result now fetched) as [cs|e] eqn:E; cbn [fst].
  - destruct (ideas_of_result_parsed _ _ _ E) as [t ->].
    destruct Hs as (_ & _ & He). repeat split.
    + cbn. unfold parseConcepts, mapi. now apply mapi_from_id_NoDup.
    + cbn. apply Forall_forall. intros c Hc.
      destruct (parseConcepts_member _ _ _ Hc) as (H1 & _ & _ & H4 & H5).
      repeat split; [assumption | assumption | now left].
    + exact He.
  - apply (content_ok_same_concepts s); [reflexivity | now right | assumption].
Qed.

Lemma visualizeConcept_settle_content conceptId fetched s :
  Page.content_ok s ->
  Page.content_ok (fst (visualizeConcept_settle conceptId fetched s)).
Proof.
  intros Hs. unfold visualizeConcept_settle.
  destruct (imageUrl_of_result fetched) as [u|e] eqn:E; cbn [fst].
  - destruct (imageUrl_of_result_data_uri _ _ E) as [b ->].
    destruct Hs as (Hn & Hf & He). repeat split.
    + cbn. now rewrite set_image_ids.
    + cbn. unfold set_image. apply Forall_forall. intros c' Hc'.
      apply in_map_iff in Hc'. destruct Hc' as (c & <- & Hc).
      rewrite Forall_forall in Hf. destruct (Hf c Hc) as (H1 & H2 & H3).
      destruct (id c =? conceptId); [|now repeat split].
      repeat split; [exact H1 | exact H2 | now right].
    + exact He.
  - apply (content_ok_same_concepts s); [reflexivity | now right | assumption].
Qed.

Lemma step_content_ok x i :
  match i with
  | Page.IdeasSettled now _ => clock_monotone now
  | _ => True
  end ->
  Page.content_ok (Page.ui x) -> Page.content_ok (Page.ui (Page.step x i)).
Proof.
  intros Hi Hx. unfold Page.step.
  destruct i as [|n| | | | |now fetched|conceptId fetched].
  - destruct (generate_disabled (Page.ui x)); [assumption|].
    destruct (negb (truthy (JStr (brief (Page.ui x))))).
    + apply (content_ok_same_concepts (Page.ui x)); [reflexivity | now right | assumption].
    + cbn. repeat split; [constructor | constructor | now left].
  - destruct (nth_error (concepts (Page.ui x)) n) as [c|]; [|assumption].
    destruct (visualize_disabled (Page.ui x)); [assumption|].
    apply (content_ok_same_concepts (Page.ui x)); [reflexivity | now left | assumption].
  - apply (content_ok_same_concepts (Page.ui x)); [reflexivity | now left | assumption].
  - destruct Hx as (Hn & Hf & He). now repeat split.
  - destruct Hx as (Hn & Hf & He). now repeat split.
  - destruct Hx as (Hn & Hf & He). now repeat split.
  - destruct (Page.ideas_pending x); [assumption|].
    now apply generateIdeas_settle_content.
  - destruct (existsb (Z.eqb conceptId) (Page.images_pending x)); [|assumption].
    now apply visualizeConcept_settle_content.
Qed.

(** X23. In every state a session can reach, with clocks that do not run
    backwards: the identifiers of the concepts are pairwise distinct; every
    concept has a text and a card heading that are not empty; every image
    that is stored is shown among the visual prototypes; and an error that
    is set is shown in the error box. *)
Theorem page_content (inputs : list Page.input) :
  Page.clocks_monotone inputs ->
  Page.content_ok (Page.ui (Page.after inputs)).
Proof.
  intros Hc. unfold Page.after.
  apply (fold_left_invariant Page.step (fun x => Page.content_ok (Page.ui x))
           (fun i => match i with
                     | Page.IdeasSettled now _ => clock_monotone now
                     | _ => True
                     end)).
  - intros a b Ha Hb. now apply step_content_ok.
  - exact Hc.
  - cbn. repeat split; [constructor | constructor | now left].
Qed.

(* ================================================================== *)
(** ** What the user is told after the last attempt *)
(* ================================================================== *)

(** When every attempt before the last fails and the last one throws, the
    invocation fails with what the last one threw. *)
Lemma fetchWithBackoff_last_throws fetch req maxRetries e :
  0 < maxRetries ->
  (forall k, Z.of_nat k < maxRetries - 1 -> failed (fetch k) = true) ->
  attempt (fetch (Z.to_nat (maxRetries - 1))) = Throw e ->
  fst (fetchWithBackoff fetch req maxRetries) = Throw e.
Proof.
  intros Hpos Hall He. set (p := Z.to_nat (maxRetries - 1)) in *.
  assert (Hp : Z.of_nat p = maxRetries - 1) by (unfold p; lia).
  rewrite (fetchWithBackoff_resume fetch req maxRetries p); [| lia |].
  - replace (Z.to_nat maxRetries - p)%nat with 1%nat by lia.
    rewrite attempts_S, Nat2Z.id, He, Hp, Z.eqb_refl. reflexivity.
  - intros k Hk. unfold retried.
    destruct (attempt_failed (fetch k)) as [-> | [e' ->]];
      [apply Hall; lia | reflexivity |].
    apply negb_true_iff, Z.eqb_neq. lia.
Qed.

Section LastFailure.

Variable w : App.world.

(** X4. When the first four attempts of an action fail and the fifth is
    answered with a failure status other than 429 and an error body that
    parses to something other than [null], the page shows, after the
    action's own prefix, what the fifth attempt threw:
    ["HTTP error! status: N"] when the body's [error.message] is missing
    or falsy; that message converted to a string when it is truthy, a
    non-empty string being shown as it is; the message of the [TypeError]
    of the conversion when it has no string form. What the earlier
    attempts answered is not reported. *)
Theorem run_shows_last_failure (a : action) (s : state) (resp : response) (errData : jsval) :
  (a = GenerateIdeas -> brief s <> "") ->
  (forall k, (k < 4)%nat -> failed (fetch w k) = true) ->
  fetch w 4%nat = Ok resp ->
  ok resp = false ->
  status resp <> 429 ->
  json resp = Ok errData ->
  nullish errData = false ->
  let said := opt_get (opt_get errData "error") "message" in
  let shown m :=
    Some ((match a with
           | GenerateIdeas => "Failed to generate ideas. "
           | VisualizeConcept _ _ => "Failed to generate image. "
           end) ++ m) in
  (truthy said = false ->
   error (fst (run w a s)) = shown ("HTTP error! status: " ++ string_of_Z (status resp)))
  /\ (forall m, said = JStr m -> m <> "" -> error (fst (run w a s)) = shown m)
  /\ (truthy said = true -> convertible said = true ->
      error (fst (run w a s)) = shown (to_string said))
  /\ (convertible said = false ->
      exists e, ToString said = Throw e /\ exn_name e = "TypeError"
                /\ error (fst (run w a s)) = shown (message e)).
Proof.
  intros Hb Hall Hresp Hok H429 Hj Hn said shown.
  assert (Hthrows : exists e, attempt (Ok resp) = Throw e).
  { rewrite (attempt_error_body resp errData Hok H429 Hj Hn).
    destruct (new_Error _) as [e|e]; cbn [bind]; eauto. }
  destruct Hthrows as [e He].
  destruct (attempt_error_body_thrown resp errData e Hok H429 Hj Hn He)
    as (Hfalsy & Htruthy & Hthrow).
  assert (Hf : forall req, fst (fetchWithBackoff (fetch w) req default_maxRetries) = Throw e).
  { intros req. apply fetchWithBackoff_last_throws; [reflexivity | |].
    - intros k Hk. apply Hall. unfold default_maxRetries in Hk. lia.
    - change (Z.to_nat (default_maxRetries - 1)) with 4%nat. now rewrite Hresp. }
  assert (Hshown : error (fst (run w a s)) = shown (message e)).
  { subst shown. destruct a as [|conceptId conceptText]; cbn [run].
    - rewrite generateIdeas_error by (now apply Hb).
      rewrite Hf. reflexivity.
    - rewrite visualizeConcept_error, Hf. reflexivity. }
  rewrite Hshown. fold said in Hfalsy, Htruthy, Hthrow.
  split; [intros H; now rewrite (Hfalsy H)|].
  split.
  { intros m Em Hm. rewrite Htruthy; rewrite Em; try reflexivity.
    destruct m; [contradiction | reflexivity]. }
  split; [intros H1 H2; now rewrite (Htruthy H1 H2)|].
  intros Hc. exists cannot_convert. rewrite (Hthrow Hc).
  unfold ToString. rewrite Hc. now repeat split.
Qed.

End LastFailure.

(* ================================================================== *)
(** ** The tone written into the prompt *)
(* ================================================================== *)

(** X16. The table [creativityLevels] has five keys. At each of them the prompt
    names a tone; at every other position of the slider, the initial 0.7
    among them, the lookup gives [undefined] and the prompt sent to the
    provider reads "The tone of the concepts should be undefined." *)
Theorem ideas_prompt_tone (creativity : Z) (brief : string) :
  (In creativity [0; 25; 50; 75; 100] ->
   exists label, creativityLevels creativity = JStr label /\ label <> "")
  /\ (~ In creativity [0; 25; 50; 75; 100] ->
      exists a b,
        ideas_prompt creativity brief
          = a ++ "The tone of the concepts should be undefined." ++ b).
Proof.
  split.
  - intros H. cbn in H.
    destruct H as [<-|[<-|[<-|[<-|[<-|[]]]]]]; eexists; split; try reflexivity; discriminate.
  - intros H. assert (E : creativityLevels creativity = JUndefined).
    { unfold creativityLevels.
      repeat match goal with
             | |- context [creativity =? ?k] =>
                 destruct (Z.eqb_spec creativity k) as [->|_];
                 [exfalso; apply H; cbn; tauto|]
             end.
      reflexivity. }
    let a := eval vm_compute in (substring 0 290 (ideas_prompt 70 "")) in
    let p := eval vm_compute in (substring 335 40 (ideas_prompt 70 "")) in
    let q := eval vm_compute in (substring 375 138 (ideas_prompt 70 "")) in
    exists a, (p ++ brief ++ q).
    unfold ideas_prompt. rewrite E. reflexivity.
Qed.

(* ================================================================== *)
(** ** Concrete runs for the facts above *)
(* ================================================================== *)

Lemma fetchWithBackoff_all_rate_limited_witness :
  fetchWithBackoff fetch_429 a_request default_maxRetries
    = (Throw retries_exhausted,
       [EvFetch a_request; EvSleep 1000; EvFetch a_request; EvSleep 2000;
        EvFetch a_request; EvSleep 4000; EvFetch a_request; EvSleep 8000;
        EvFetch a_request; EvSleep 16000]).
Proof.
  apply (fetchWithBackoff_all_rate_limited fetch_429 a_request default_maxRetries).
  intros k Hk. reflexivity.
Defined.

Lemma fetchWithBackoff_ok_ends_witness :
  fetchWithBackoff fetch_429_then_page a_request default_maxRetries
    = (Throw not_json, [EvFetch a_request; EvSleep 1000; EvFetch a_request]).
Proof.
  apply (fetchWithBackoff_ok_ends fetch_429_then_page a_request default_maxRetries
           1 page_200).
  - reflexivity.
  - intros k Hk. destruct k as [|k]; [reflexivity | lia].
  - reflexivity.
  - reflexivity.
Defined.

Lemma run_shows_last_failure_witness :
  error (fst (run world_503 (VisualizeConcept (id alpha) (text alpha)) (session "Brief")))
    = Some "Failed to generate image. unavailable".
Proof.
  destruct (run_shows_last_failure world_503 (VisualizeConcept (id alpha) (text alpha))
              (session "Brief") unavailable (error_body (JStr "unavailable")))
    as (_ & Hs & _).
  - discriminate.
  - intros k Hk. reflexivity.
  - reflexivity.
  - reflexivity.
  - discriminate.
  - reflexivity.
  - reflexivity.
  - apply (Hs "unavailable"); [reflexivity | discriminate].
Defined.

Lemma parseConcepts_texts_witness :
  In beta (parseConcepts steady_clock alpha_beta_text)
  /\ text beta <> "" /\ title beta <> "" /\ has_image beta = false.
Proof.
  assert (Hin : In beta (parseConcepts steady_clock alpha_beta_text))
    by (right; left; reflexivity).
  destruct (parseConcepts_texts steady_clock alpha_beta_text beta Hin)
    as (H1 & _ & _ & H4 & H5).
  repeat split; assumption.
Defined.

Lemma is_marker_example (d : string) :
  d = "1" \/ d = "2" \/ d = "3" -> is_marker (d ++ ". ").
Proof.
  intros H. exists d, " ".
  destruct H as [ -> | [ -> | -> ] ]; repeat split; discriminate.
Qed.

Lemma parseConcepts_weave_witness :
  map text (parseConcepts steady_clock
              (weave [""; "Alpha" ++ nl; "Beta" ++ nl; ""] ["1. "; "2. "; "3. "]))
    = ["Alpha"; "Beta"].
Proof.
  apply (parseConcepts_weave steady_clock
           [""; "Alpha" ++ nl; "Beta" ++ nl; ""] ["1. "; "2. "; "3. "]).
  - reflexivity.
  - repeat constructor.
    + apply (is_marker_example "1"). now left.
    + apply (is_marker_example "2"). right. now left.
    + apply (is_marker_example "3"). right. now right.
  - repeat split.
    + repeat constructor; apply no_marker_in_sound; reflexivity.
    + repeat constructor.
    + repeat constructor.
Defined.

Lemma parseConcepts_without_marker_witness :
  parseConcepts steady_clock "  Version 2.0 of one idea "
    = [ {| id := 1700000000000; text := "Version 2.0 of one idea"; imageUrl := None |} ].
Proof.
  apply (parseConcepts_without_marker steady_clock "  Version 2.0 of one idea ").
  reflexivity.
Defined.

Lemma set_image_compose_witness :
  set_image (id alpha) "second" (set_image (id alpha) "first" [alpha; beta])
    = set_image (id alpha) "second" [alpha; beta]
  /\ set_image (id alpha) "a" (set_image (id beta) "b" [alpha; beta])
     = set_image (id beta) "b" (set_image (id alpha) "a" [alpha; beta]).
Proof.
  destruct (set_image_compose (id alpha) (id beta) "first" "second" [alpha; beta]) as [H1 _].
  destruct (set_image_compose (id alpha) (id beta) "a" "b" [alpha; beta]) as [_ H2].
  split; [exact H1 | apply H2; discriminate].
Defined.

Lemma visualizeConcept_frame_witness :
  map id (concepts (fst (visualizeConcept online (id alpha) (text alpha) (session "Brief"))))
    = [id alpha; id beta]
  /\ map text (concepts (fst (visualizeConcept online (id alpha) (text alpha)
                               (session "Brief"))))
     = ["Alpha"; "Beta"].
Proof.
  destruct (visualizeConcept_frame online (id alpha) (text alpha) (session "Brief"))
    as (_ & _ & _ & _ & Hi & Ht & _).
  split; [exact Hi | exact Ht].
Defined.

Lemma visualizeConcept_unknown_id_witness :
  concepts (fst (visualizeConcept online 42 "gone" (session "Brief"))) = [alpha; beta].
Proof.
  apply (visualizeConcept_unknown_id online 42 "gone" (session "Brief")).
  cbn. intros [H|[H|[]]]; discriminate.
Defined.

Lemma generateIdeas_no_visuals_witness :
  visual_prototypes (fst (generateIdeas offline (session "Brief"))) = [].
Proof.
  apply (generateIdeas_no_visuals offline (session "Brief")). discriminate.
Defined.

Lemma run_error_shown_witness :
  error_shown (fst (run offline GenerateIdeas (session ""))) = true.
Proof.
  apply (run_error_shown offline GenerateIdeas (session "")
           "Please enter a creative brief.").
  reflexivity.
Defined.

Lemma visualizeConcept_shows_image_witness :
  In {| id := id alpha; text := text alpha; imageUrl := Some "data:image/png;base64,QUJD" |}
     (visual_prototypes (fst (visualizeConcept online (id alpha) (text alpha)
                               (session "Brief")))).
Proof.
  apply (visualizeConcept_shows_image online (session "Brief") alpha
           "data:image/png;base64,QUJD").
  - left. reflexivity.
  - reflexivity.
Defined.

Lemma generateIdeas_invalid_structure_witness :
  error (fst (generateIdeas world_empty_object (session "Brief")))
    = Some "Failed to generate ideas. Invalid response structure from API."
  /\ concepts (fst (generateIdeas world_empty_object (session "Brief"))) = [].
Proof.
  destruct (generateIdeas_invalid_structure world_empty_object (session "Brief") (JObj []))
    as (He & Hc & _).
  - discriminate.
  - reflexivity.
  - reflexivity.
  - split; [exact He | exact Hc].
Defined.

Lemma generate_image_relays_witness :
  Proxy.generate_image proxy_online (JObj cat_props)
    = ({| Proxy.code := 200; Proxy.content := qujd_result |},
       [EvGetClient; EvGetAccessToken;
        EvFetch (Proxy.upstream_request (JStr "ya29.token") (JStr "a cat"))]).
Proof.
  apply (generate_image_relays proxy_online cat_props tt token_object (JStr "ya29.token")
           {| status := 200; json := Ok qujd_result |} qujd_result); reflexivity.
Defined.

Lemma generate_image_auth_failure_witness :
  fst (Proxy.generate_image proxy_no_credentials (JObj cat_props))
    = {| Proxy.code := 500;
         Proxy.content := JObj [("error", JStr "Could not load the default credentials.")] |}
  /\ count_fetches (snd (Proxy.generate_image proxy_no_credentials (JObj cat_props))) = O.
Proof.
  apply (generate_image_auth_failure proxy_no_credentials cat_props no_credentials).
  - reflexivity.
  - left. reflexivity.
Defined.

Lemma generate_image_upstream_failure_witness :
  fst (Proxy.generate_image proxy_rate_limited (JObj cat_props))
    = {| Proxy.code := 500; Proxy.content := JObj [("error", JStr "Quota exceeded")] |}
  /\ count_fetches (snd (Proxy.generate_image proxy_rate_limited (JObj cat_props))) = 1%nat.
Proof.
  destruct (generate_image_upstream_failure proxy_rate_limited cat_props tt token_object
              (JStr "ya29.token") quota (error_body (JStr "Quota exceeded")))
    as (_ & Hs & _ & _ & Hn); try reflexivity.
  split; [|exact Hn]. apply (Hs "Quota exceeded"); [reflexivity | discriminate].
Defined.

Lemma generate_image_falsy_values_witness :
  Proxy.generate_image proxy_online (JObj [("prompt", JStr "")])
    = (Proxy.prompt_required, []).
Proof.
  apply (generate_image_falsy_values proxy_online [("prompt", JStr "")]).
  left. reflexivity.
Defined.

Lemma ideas_prompt_tone_witness :
  exists a b,
    ideas_prompt (creativity Page.initial) (brief Page.initial)
      = a ++ "The tone of the concepts should be undefined." ++ b.
Proof.
  destruct (ideas_prompt_tone (creativity Page.initial) (brief Page.initial)) as [_ H].
  apply H. cbn. intros [H0|[H0|[H0|[H0|[H0|[]]]]]]; discriminate.
Defined.

Lemma page_content_witness :
  Page.clocks_monotone a_session
  /\ map text (concepts (Page.ui (Page.after a_session))) = ["Alpha"; "Beta"]
  /\ Page.content_ok (Page.ui (Page.after a_session)).
Proof.
  assert (Hc : Page.clocks_monotone a_session).
  { unfold Page.clocks_monotone, a_session. repeat constructor.
    intros k. unfold steady_clock. lia. }
  split; [exact Hc|]. split; [reflexivity|].
  apply (page_content a_session Hc).
Defined.
